(** * Gumbel recurrence analysis of annual rainfall totals (gumbel.py)

    A shallow embedding of the statistical core of [gumbel.py]:
    [analise_recorrencia] (mean, sample standard deviation, Weibull
    plotting positions, Gumbel fit and quantiles) and the annual summary
    and export column built by [separar_dados_por_ano].

    Numbers.  The program computes on IEEE binary64 values (numpy
    float64).  Every definition below is written once, over a carrier
    [A] with the arithmetic the source uses ([Arith]), and is read at two
    instances:
    - [float]: Rocq's primitive binary64 floats, which round exactly as
      numpy does; definitions evaluate there with [vm_compute];
    - [R]: exact real arithmetic, in which the algebraic laws of the
      method (orderings, inverses, equalities of formulas) are stated.

    Library code.  numpy, pandas and scipy are not part of the
    repository.  numpy's elementwise operations, [np.sort], [np.mean] and
    [np.std] are transcribed from their documented meaning; scipy's
    [gumbel_r] is a parameter of the analysis ([Scipy]).

    Effects.  Printing and plotting ([print], [plt.*]) only read their
    arguments and are left out.

    Beyond the analysis, the file embeds the selection of years
    ([selecionar_anos], with the line typed and the builtin [int] as
    arguments), the sheets that [separar_dados_por_ano] exports, and the
    file names handled by [separar_dados_por_ano] and [main]. *)

From Stdlib Require Import String Ascii.
From Stdlib Require Import List ZArith Lia Bool.
From Stdlib Require Import Sorting.Permutation Sorting.Sorted.
From Stdlib Require Import Reals Lra.
From Stdlib Require Import Floats Uint63.
Import ListNotations.

Set Implicit Arguments.

(** ** Arithmetic of the carrier *)

Class Arith (A : Type) : Type := {
  of_Z : Z -> A;                (* int -> float conversion *)
  add : A -> A -> A;
  sub : A -> A -> A;
  mul : A -> A -> A;
  div : A -> A -> A;
  sqrt : A -> A;
  leb : A -> A -> bool          (* [<=] *)
}.

Declare Scope arith_scope.
Delimit Scope arith_scope with ar.
Infix "+" := add : arith_scope.
Infix "-" := sub : arith_scope.
Infix "*" := mul : arith_scope.
Infix "/" := div : arith_scope.
Infix "<=?" := leb : arith_scope.

(** An integer as a binary64 value (exact below 2^53). *)
Definition float_of_Z (z : Z) : float :=
  match z with
  | Z0 => PrimFloat.zero
  | Zpos _ => PrimFloat.of_uint63 (Uint63.of_Z z)
  | Zneg _ => PrimFloat.opp (PrimFloat.of_uint63 (Uint63.of_Z (Z.opp z)))
  end.

(** binary64, as numpy computes. *)
#[export] Instance float_arith : Arith float := {|
  of_Z := float_of_Z;
  add := PrimFloat.add;
  sub := PrimFloat.sub;
  mul := PrimFloat.mul;
  div := PrimFloat.div;
  sqrt := PrimFloat.sqrt;
  leb := PrimFloat.leb
|}.

(** [x <= y] on the reals, as a boolean. *)
Definition Rleb (x y : R) : bool := if Rle_dec x y then true else false.

(** Exact arithmetic. *)
#[export] Instance R_arith : Arith R := {|
  of_Z := IZR;
  add := Rplus;
  sub := Rminus;
  mul := Rmult;
  div := Rdiv;
  sqrt := R_sqrt.sqrt;
  leb := Rleb
|}.

(** ** Sorting by a boolean order *)

Section SortBy.
Context {T : Type} (le : T -> T -> bool).

Fixpoint insert_by (x : T) (l : list T) : list T :=
  match l with
  | [] => [x]
  | y :: l' => if le x y then x :: l else y :: insert_by x l'
  end.

Fixpoint sort_by (xs : list T) : list T :=
  match xs with
  | [] => []
  | x :: xs' => insert_by x (sort_by xs')
  end.
End SortBy.

(** ** numpy on one-dimensional arrays (their contents as lists) *)

Section Numpy.
Context {A : Type} `{Arith A}.
Local Open Scope arith_scope.

Definition zero : A := of_Z 0.
Definition one : A := of_Z 1.

(** 0/0, which is NaN in binary64. *)
Definition nan : A := zero / zero.

(** [x <= x] fails for NaN only. *)
Definition notna (x : A) : bool := x <=? x.

(** The larger of two values, by comparison. *)
Definition maximum (x y : A) : A := if x <=? y then y else x.

(** [np.sum]: the additions are done left to right (numpy's loop for
    short arrays; in exact arithmetic the order is immaterial). *)
Definition np_sum (xs : list A) : A := fold_left add xs zero.

(** [len(a)]. *)
Definition len {X : Type} (xs : list X) : Z := Z.of_nat (length xs).

(** [np.mean(a)]: the sum divided by the number of items. *)
Definition np_mean (xs : list A) : A := np_sum xs / of_Z (len xs).

(** [np.var(a, ddof=ddof)]: the sum of the squared deviations from the
    mean over [max(n - ddof, 0)]. *)
Definition np_var (ddof : Z) (xs : list A) : A :=
  let arrmean := np_mean xs in
  let x := map (fun v => v - arrmean) xs in
  let x2 := map (fun d => d * d) x in
  np_sum x2 / of_Z (Z.max (len xs - ddof) 0).

(** [np.std(a, ddof=ddof)]. *)
Definition np_std (ddof : Z) (xs : list A) : A := sqrt (np_var ddof xs).

(** [np.arange(start, stop)] on integers. *)
Definition np_arange (start stop : Z) : list Z :=
  map (fun i => (start + Z.of_nat i)%Z) (seq 0 (Z.to_nat (stop - start))).

(** [np.sort(a)]: a new array with the items in ascending order.  On
    NaN-free data every sorting algorithm returns the same array;
    insertion is the one written here. *)
Definition np_sort (xs : list A) : list A := sort_by leb xs.
End Numpy.

(** ** The steps of [analise_recorrencia] on array contents *)

(** A Python exception: the name of its class and its message. *)
Record exn : Type := PyExn { exn_class : string; exn_msg : string }.

(** What the analysis uses of [scipy.stats.gumbel_r]: [fit], which
    returns [(loc, scale)] or raises, and [ppf q loc scale]. *)
Record Scipy (A : Type) : Type := {
  gumbel_r_fit : list A -> exn + (A * A);
  gumbel_r_ppf : A -> A -> A -> A
}.

(** An outcome that is an exception of class [cls]. *)
Definition raises {X : Type} (cls : string) (out : exn + X) : Prop :=
  exists e, out = inl e /\ exn_class e = cls.

Section Recorrencia.
Context {A : Type} `{Arith A}.
Local Open Scope arith_scope.

(** [np.sort(totais_anuais)[::-1]] (line 50). *)
Definition totais_ordenados (totais_anuais : list A) : list A :=
  rev (np_sort totais_anuais).

(** [P = m / (n + 1)] for an integer array [m] (line 52): both sides
    are converted to float and divided item by item. *)
Definition weibull (m : list Z) (n : Z) : list A :=
  map (fun k => of_Z k / of_Z (n + 1)) m.

(** [1 / P] (lines 53 and 61), item by item. *)
Definition inverso (P : list A) : list A := map (fun p => one / p) P.

(** [m], [P] and [T_empirico] for a sample of [n] totals (lines 51-53). *)
Definition m_postos (n : Z) : list Z := np_arange 1 (n + 1).
Definition P_weibull (n : Z) : list A := weibull (m_postos n) n.
Definition T_empirico (n : Z) : list A := inverso (P_weibull n).

(** The points drawn by [plt.scatter(T_empirico, totais_ordenados)]
    (line 66): the k-th return period with the k-th largest total. *)
Definition pontos_empiricos (totais_anuais : list A) : list (A * A) :=
  combine (T_empirico (len totais_anuais)) (totais_ordenados totais_anuais).

(** [T_alvo] and [P_alvo = 1 / T_alvo] (lines 60-61). *)
Definition T_alvo : list Z := [2; 5; 10; 25; 50; 100; 1000; 10000]%Z.
Definition P_alvo : list A := map (fun T => one / of_Z T) T_alvo.

(** [Q_T = gumbel_r.ppf(1 - P_alvo, loc=loc, scale=scale)] (line 62). *)
Definition Q_T (lib : Scipy A) (loc scale : A) : list A :=
  map (fun p => gumbel_r_ppf lib (one - p) loc scale) P_alvo.

(** The column 'Tempo de Recorrência Empírico (anos)' of the sheet
    'Dados para Análise' (line 154):
    [1 / np.arange(1, len(resumo) + 1) * (len(resumo) + 1)]. *)
Definition Tempo_de_Recorrencia_Empirico (len_resumo : Z) : list A :=
  map (fun k => one / of_Z k * of_Z (len_resumo + 1))
      (np_arange 1 (len_resumo + 1)).
End Recorrencia.

(** ** Arrays as objects: the store

    A numpy array is an object; a variable holds a reference to it.
    The store lists the arrays allocated so far, and a reference is an
    index into it.  Every array the analysis binds to a variable is a new
    object of the store ([np.sort] returns a sorted copy, an arithmetic
    expression a new array); no statement of the analysis writes into an
    existing array. *)

Inductive cell (A : Type) : Type :=
| IntArr (l : list Z)
| FloatArr (l : list A).
Arguments IntArr {A} l.
Arguments FloatArr {A} l.

Definition ndarray : Type := nat.
Definition store (A : Type) : Type := list (cell A).

(** A computation reads and extends the store, and returns a value or
    raises an exception. *)
Definition M (A X : Type) : Type := store A -> (exn + X) * store A.

Definition ret {A X : Type} (x : X) : M A X := fun s => (inr x, s).

Definition bind {A X Y : Type} (c : M A X) (k : X -> M A Y) : M A Y :=
  fun s =>
    match c s with
    | (inl e, s') => (inl e, s')
    | (inr x, s') => k x s'
    end.

Notation "x <- c ;; k" := (bind c (fun x => k))
  (at level 61, c at next level, right associativity).
Notation "' pat <- c ;; k" := (bind c (fun x => match x with pat => k end))
  (at level 61, pat pattern, c at next level, right associativity).

(** The outcome of a library call that may raise. *)
Definition chamar {A X : Type} (r : exn + X) : M A X := fun s => (r, s).

(** A new array object. *)
Definition novo {A : Type} (c : cell A) : M A ndarray :=
  fun s => (inr (length s), s ++ [c]).

Section Store.
Context {A : Type} `{Arith A}.

(** The items of an array as floats (numpy converts an integer array
    where a float one is needed). *)
Definition floats (c : cell A) : list A :=
  match c with
  | FloatArr l => l
  | IntArr l => map of_Z l
  end.

Definition ints (c : cell A) : list Z :=
  match c with
  | IntArr l => l
  | FloatArr _ => []
  end.

(** The array a reference points to (every reference in use was handed
    out by [novo] or by the caller, so the default is never met). *)
Definition deref (s : store A) (a : ndarray) : cell A := nth a s (FloatArr []).

Definition ler (a : ndarray) : M A (list A) := fun s => (inr (floats (deref s a)), s).
Definition ler_int (a : ndarray) : M A (list Z) := fun s => (inr (ints (deref s a)), s).
End Store.

(** ** [analise_recorrencia] *)

Record Parametros (A : Type) : Type := { loc : A; scale : A }.

(** The dictionary returned by [analise_recorrencia] (lines 89-97); the
    three arrays are held by reference. *)
Record Resultado (A : Type) : Type := {
  media : A;
  desvio_padrao : A;
  n_amostras : Z;
  parametros_gumbel : Parametros A;
  tempos_recorrencia : ndarray;
  totais_estimados : ndarray;
  totais_observados : ndarray
}.

Section Analise.
Context {A : Type} `{Arith A}.
Variable lib : Scipy A.

(** [analise_recorrencia(totais_anuais, output_prefix)], lines 36-97.
    [output_prefix] only names the two image files and is left out with
    the printing (lines 44-46, 57) and the plotting (lines 64-87). *)
Definition analise_recorrencia (totais_anuais : ndarray) : M A (Resultado A) :=
  (* Cálculos estatísticos (42-43) *)
  xs <- ler totais_anuais ;;
  let media := np_mean xs in
  xs <- ler totais_anuais ;;
  let desvio_padrao := np_std 1 xs in
  (* Ordenação (Weibull) (49-53) *)
  xs <- ler totais_anuais ;;
  let n := len xs in
  xs <- ler totais_anuais ;;
  totais_ordenados <- novo (FloatArr (rev (np_sort xs))) ;;
  m <- novo (IntArr (np_arange 1 (n + 1))) ;;
  ms <- ler_int m ;;
  P <- novo (FloatArr (weibull ms n)) ;;
  Ps <- ler P ;;
  T_empirico <- novo (FloatArr (inverso Ps)) ;;
  (* Ajuste da distribuição de Gumbel (56) *)
  xs <- ler totais_anuais ;;
  '(loc, scale) <- chamar (gumbel_r_fit lib xs) ;;
  (* Cálculo do Tempo de Recorrência (60-62) *)
  T_alvo <- novo (IntArr T_alvo) ;;
  Ts <- ler T_alvo ;;
  P_alvo <- novo (FloatArr (inverso Ts)) ;;
  Ps <- ler P_alvo ;;
  Q_T <- novo (FloatArr (map (fun p => gumbel_r_ppf lib (sub one p) loc scale) Ps)) ;;
  (* (89-97) *)
  ret {| media := media;
         desvio_padrao := desvio_padrao;
         n_amostras := n;
         parametros_gumbel := {| loc := loc; scale := scale |};
         tempos_recorrencia := T_alvo;
         totais_estimados := Q_T;
         totais_observados := totais_anuais |}.

(** The arrays the analysis allocates: four by the ranking step, and
    three more once the fit has returned [(loc, scale)]. *)
Definition arrays_da_ordenacao (xs : list A) : store A :=
  [FloatArr (totais_ordenados xs);
   IntArr (m_postos (len xs));
   FloatArr (P_weibull (len xs));
   FloatArr (T_empirico (len xs))].

Definition arrays_da_recorrencia (loc scale : A) : store A :=
  [IntArr T_alvo; FloatArr P_alvo; FloatArr (Q_T lib loc scale)].

(** The call of line 127: the analysis on the array of the annual
    totals, the only object of the store. *)
Definition analisar (totais : list A) : (exn + Resultado A) * store A :=
  analise_recorrencia 0 [FloatArr totais].
End Analise.

(** ** The annual summary of [separar_dados_por_ano] (lines 116-124) *)

Record date : Type := { year : Z; month : Z; day : Z }.

(** A row of the sheet 'Dados'. *)
Record Observacao (A : Type) : Type := { Data : date; Total : A }.

(** A row of [resumo]: 'Ano', 'Total Anual (mm)', 'Chuva Máxima (mm)',
    'Meses com Dados'. *)
Record ResumoAnual (A : Type) : Type := {
  Ano : Z;
  Total_Anual : A;
  Chuva_Maxima : A;
  Meses_com_Dados : Z
}.

Section Resumo.
Context {A : Type} `{Arith A}.

(** [pd.to_datetime(dados['Data']).dt.year]. *)
Definition ano_de (o : Observacao A) : Z := year (Data o).

(** The keys of [groupby('Ano')]: the distinct years, ascending. *)
Definition anos (dados : list (Observacao A)) : list Z :=
  sort_by Z.leb (nodup Z.eq_dec (map ano_de dados)).

(** The 'Total' column of the rows of one year, in row order. *)
Definition grupo (dados : list (Observacao A)) (ano : Z) : list A :=
  map (@Total A) (filter (fun o => Z.eqb (ano_de o) ano) dados).

(** ['sum'], ['max'] and ['count'] of a group; pandas leaves NaN items
    out of all three. *)
Definition agg_sum (g : list A) : A := np_sum (filter notna g).
Definition agg_max (g : list A) : A :=
  match filter notna g with
  | [] => nan
  | x :: r => fold_left maximum r x
  end.
Definition agg_count (g : list A) : Z := len (filter notna g).

(** [groupby('Ano').agg({'Total': ['sum', 'max', 'count']})] followed
    by [reset_index()]. *)
Definition resumo (dados_filtrados : list (Observacao A)) : list (ResumoAnual A) :=
  map (fun ano =>
         let g := grupo dados_filtrados ano in
         {| Ano := ano;
            Total_Anual := agg_sum g;
            Chuva_Maxima := agg_max g;
            Meses_com_Dados := agg_count g |})
      (anos dados_filtrados).

(** [resumo['Total Anual (mm)'].values], the argument of the analysis. *)
Definition totais_anuais_de (r : list (ResumoAnual A)) : list A :=
  map (@Total_Anual A) r.
End Resumo.

(** ** Checks on binary64 arrays *)

(** [0 < p < 1]. *)
Definition entre_0_e_1 (p : float) : bool :=
  PrimFloat.ltb PrimFloat.zero p && PrimFloat.ltb p PrimFloat.one.

(** Each item is greater than the next one. *)
Fixpoint decrescente (l : list float) : bool :=
  match l with
  | x :: ((y :: _) as r) => PrimFloat.ltb y x && decrescente r
  | _ => true
  end.

(** ** The Gumbel distribution in exact arithmetic *)

Module gumbel_r.
Local Open Scope R_scope.

(** Modelled from the spec: [scipy.stats.gumbel_r] is not part of the
    repository.  The cumulative distribution function is the one of
    section 4.3, CDF(x) = exp(-exp(-(x-loc)/scale)). *)
Definition cdf (x loc scale : R) : R := exp (- exp (- ((x - loc) / scale))).

(** Modelled from the spec: the quantile function (section 4.4, the
    inverse of the CDF), in its closed form
    loc - scale * ln(-ln q). *)
Definition ppf (q loc scale : R) : R := loc + scale * (- ln (- ln q)).

End gumbel_r.

(** ** Two stand-ins for the library *)

(** A library whose fit returns the mean and the standard deviation as
    parameters, and one whose fit raises an error of its own (as a root
    finder does on a NaN): two ways a fit may treat a degenerate sample. *)
Definition fit_que_retorna : Scipy float :=
  {| gumbel_r_fit := fun xs => inr (np_mean xs, np_std 1 xs);
     gumbel_r_ppf := fun q l sc => add l (mul sc q) |}.

Definition fit_que_falha : Scipy float :=
  {| gumbel_r_fit := fun _ => inl (PyExn "ValueError" "solver cannot continue");
     gumbel_r_ppf := fun q l sc => add l (mul sc q) |}.

(** ** Python strings

    A [str] is the list of its characters, each a code point below 256. *)

Definition str : Type := list ascii.

(** A literal. *)
Definition lit (s : string) : str := list_ascii_of_string s.

Fixpoint str_eqb (a b : str) : bool :=
  match a, b with
  | [], [] => true
  | x :: a', y :: b' => Ascii.eqb x y && str_eqb a' b'
  | _, _ => false
  end.

(** [c.isspace()]: tab to carriage return, the four separators 28-31,
    the space, and 133 and 160 among the code points below 256. *)
Definition isspace (c : ascii) : bool :=
  let n := nat_of_ascii c in
  ((9 <=? n) && (n <=? 13) || (28 <=? n) && (n <=? 32)
   || (n =? 133) || (n =? 160))%nat.

Fixpoint lstrip (s : str) : str :=
  match s with
  | [] => []
  | c :: r => if isspace c then lstrip r else s
  end.

Definition rstrip (s : str) : str := rev (lstrip (rev s)).

(** A text with nothing to strip on the left: it is empty or starts with
    a character that is not a space. *)
Definition limpo (s : str) : Prop :=
  match s with [] => True | c :: _ => isspace c = false end.

(** [s.strip()]. *)
Definition strip (s : str) : str := rstrip (lstrip s).

(** [c.lower()] below 256: A-Z and the capital letters 192-222 (215, the
    multiplication sign, apart) move up by 32. *)
Definition lower_char (c : ascii) : ascii :=
  let n := nat_of_ascii c in
  if ((65 <=? n) && (n <=? 90)
      || (192 <=? n) && (n <=? 222) && negb (n =? 215))%nat
  then ascii_of_nat (n + 32) else c.

(** [s.lower()]. *)
Definition lower (s : str) : str := map lower_char s.

(** [s.split(sep)] for a one-character separator: the pieces between
    the separators, empty ones included; always at least one piece. *)
Fixpoint split (sep : ascii) (s : str) : list str :=
  match s with
  | [] => [[]]
  | c :: r =>
      if Ascii.eqb c sep then [] :: split sep r
      else match split sep r with
           | p :: ps => (c :: p) :: ps
           | [] => [[c]]
           end
  end.

(** [s.endswith(suffix)]. *)
Definition endswith (s suffix : str) : bool :=
  (length suffix <=? length s)%nat
  && str_eqb (skipn (length s - length suffix) s) suffix.

(** [l[i]] on a Python list: an index from [-len(l)] to [len(l) - 1],
    the negative ones counting from the end; [None] stands for
    IndexError. *)
Definition indexar {X : Type} (l : list X) (i : Z) : option X :=
  if ((0 <=? i) && (i <? len l))%Z then nth_error l (Z.to_nat i)
  else if ((- len l <=? i) && (i <? 0))%Z then nth_error l (Z.to_nat (len l + i))
  else None.

(** A list comprehension [[f(x) for x in l]] whose [f] may raise: the
    first failure ends it. *)
Fixpoint comprehension {X Y : Type} (f : X -> option Y) (l : list X) : option (list Y) :=
  match l with
  | [] => Some []
  | x :: r =>
      match f x with
      | None => None
      | Some y =>
          match comprehension f r with
          | None => None
          | Some ys => Some (y :: ys)
          end
      end
  end.

(** ** [selecionar_anos] (lines 9-34) *)

Section Selecao.
Context {A : Type}.

(** The builtin [int] on a [str]: the integer read, or [None] for
    ValueError. *)
Variable int : str -> option Z.

(** [dados['Ano'] == y], row by row. *)
Definition do_ano (y : Z) (o : Observacao A) : bool := Z.eqb (ano_de o) y.

(** [dados['Ano'].isin(anos_selecionados)], row by row. *)
Definition isin (anos_selecionados : list Z) (o : Observacao A) : bool :=
  existsb (Z.eqb (ano_de o)) anos_selecionados.

(** [selecionar_anos(dados)], with the line that [input] returns as an
    argument; the printing is left out.  Every row has a date, hence a
    year, so that [dropna] drops nothing, and [sorted(anos_disponiveis)]
    is the list of the distinct years in ascending order, [anos dados].
    Both ValueError (from [int]) and IndexError (from the indexing) are
    caught by the handler of line 32. *)
Definition selecionar_anos (linha : str) (dados : list (Observacao A))
  : list (Observacao A) :=
  let selecao := strip linha in
  if str_eqb (lower selecao) (lit "todos") then dados
  else
    match comprehension (fun i => option_map (fun k => (k - 1)%Z) (int (strip i)))
                        (split "," selecao) with
    | None => dados
    | Some indices =>
        match comprehension (indexar (anos dados)) indices with
        | None => dados
        | Some anos_selecionados => filter (isin anos_selecionados) dados
        end
    end.
End Selecao.

(** A stand-in for [int]: it reads a run of decimal digits with an
    optional sign, the plain numerals among what [int] accepts. *)
Fixpoint digitos (acc : Z) (s : str) : option Z :=
  match s with
  | [] => Some acc
  | c :: r =>
      let n := nat_of_ascii c in
      if ((48 <=? n) && (n <=? 57))%nat
      then digitos (10 * acc + Z.of_nat (n - 48)) r
      else None
  end.

Definition int_decimal (s : str) : option Z :=
  match s with
  | [] => None
  | c :: r =>
      if Ascii.eqb c "-" then
        match r with [] => None | _ => option_map Z.opp (digitos 0 r) end
      else if Ascii.eqb c "+" then
        match r with [] => None | _ => digitos 0 r end
      else digitos 0 s
  end.

(** ** From the rows to the analysis (lines 117-127) *)

Section Pipeline.
Context {A : Type} `{Arith A}.
Variable int : str -> option Z.
Variable lib : Scipy A.

End Pipeline.

(** ** Sums in exact arithmetic *)

(** The sum of a list of reals, and of a list of integers. *)
Definition Rsum (l : list R) : R := fold_right Rplus 0%R l.

(** ** The export sheets of [separar_dados_por_ano] (lines 149-160) *)

Section Exportacao.
Context {A : Type} `{Arith A}.

(** The four columns of the sheet 'Dados para Análise' (lines 150-155),
    built from the summary: the years, the annual totals in year order,
    the annual totals in descending order, and the empirical return
    periods. *)
Record DadosParaAnalise : Type := {
  col_Ano : list Z;
  col_Total_Anual_Observado : list A;
  col_Total_Anual_Ordenado : list A;
  col_Tempo_de_Recorrencia_Empirico : list A
}.

Definition dados_para_analise (r : list (ResumoAnual A)) : DadosParaAnalise :=
  {| col_Ano := map (@Ano A) r;
     col_Total_Anual_Observado := totais_anuais_de r;
     col_Total_Anual_Ordenado := rev (np_sort (totais_anuais_de r));
     col_Tempo_de_Recorrencia_Empirico := Tempo_de_Recorrencia_Empirico (len r) |}.

(** The sheets per year (lines 158-160): for each year of
    [sorted(dados_filtrados['Ano'].unique())], the rows of that year with
    their columns 'Data' and 'Total'; the sheet is named [str(ano)]. *)
Definition abas_por_ano (dados_filtrados : list (Observacao A))
  : list (Z * list (Observacao A)) :=
  map (fun ano => (ano, filter (fun o => Z.eqb (ano_de o) ano) dados_filtrados))
      (anos dados_filtrados).
End Exportacao.

(** ** File names (lines 105-106 and 208-213) *)

Definition xlsx : str := lit ".xlsx".

(** Lines 105-106 of [separar_dados_por_ano]. *)
Definition corrigir_saida (arquivo_saida : str) : str :=
  if endswith (lower arquivo_saida) xlsx then arquivo_saida
  else arquivo_saida ++ xlsx.

(** [s.rfind(c)] for the characters that satisfy [p]: the index of the
    last one, or -1. *)
Fixpoint rfind (p : ascii -> bool) (s : str) : Z :=
  match s with
  | [] => -1
  | c :: r =>
      let i := rfind p r in
      if (0 <=? i)%Z then (i + 1)%Z else if p c then 0%Z else (-1)%Z
  end.

Section Caminho.
(** The path separators of the platform: '/' for posixpath, '\' and '/'
    for ntpath. *)
Variable is_sep : ascii -> bool.

(** [os.path.splitext(p)]: the extension starts at the last dot, when
    that dot comes after the last separator and after a character of the
    file name that is not a dot. *)
Definition splitext (p : str) : str * str :=
  let sepIndex := rfind is_sep p in
  let dotIndex := rfind (Ascii.eqb ".") p in
  if (sepIndex <? dotIndex)%Z then
    let filename := firstn (Z.to_nat (dotIndex - (sepIndex + 1)))
                           (skipn (Z.to_nat (sepIndex + 1)) p) in
    if existsb (fun c => negb (Ascii.eqb c ".")) filename
    then (firstn (Z.to_nat dotIndex) p, skipn (Z.to_nat dotIndex) p)
    else (p, [])
  else (p, []).

(** [x or default] on strings: the empty string is false. *)
Definition ou (x default : str) : str :=
  match x with [] => default | _ => x end.

(** The two arguments [main] passes to [separar_dados_por_ano], from the
    two lines read by [input] (lines 208-215). *)
Definition argumentos_de_main (linha_entrada linha_saida : str) : str * str :=
  let arquivo_entrada := ou linha_entrada (lit "DadosChuva.xlsx") in
  let arquivo_saida := ou linha_saida (lit "AnaliseCompleta.xlsx") in
  let arquivo_saida :=
    if endswith (lower arquivo_saida) xlsx then arquivo_saida
    else fst (splitext arquivo_saida) ++ xlsx in
  (arquivo_entrada, arquivo_saida).
End Caminho.

(** * Properties *)

(** ** Sorting *)

Section SortByFacts.
Context {T : Type} (le : T -> T -> bool).
Hypothesis le_total : forall x y, le x y = true \/ le y x = true.
Hypothesis le_trans : forall x y z, le x y = true -> le y z = true -> le x z = true.

Lemma insert_by_perm (x : T) (l : list T) : Permutation (x :: l) (insert_by le x l).
Proof.
  induction l as [|y l IH]; simpl.
  - apply Permutation_refl.
  - destruct (le x y).
    + apply Permutation_refl.
    + eapply perm_trans; [apply perm_swap|]. now apply perm_skip.
Qed.

Lemma sort_by_perm (l : list T) : Permutation l (sort_by le l).
Proof.
  induction l as [|x l IH]; simpl.
  - apply perm_nil.
  - eapply perm_trans; [apply perm_skip, IH | apply insert_by_perm].
Qed.

Lemma insert_by_sorted (x : T) (l : list T) :
  StronglySorted (fun a b => le a b = true) l ->
  StronglySorted (fun a b => le a b = true) (insert_by le x l).
Proof.
  induction 1 as [|y l Hs IH Hall]; simpl.
  - repeat constructor.
  - destruct (le x y) eqn:Hxy.
    + constructor; [now constructor|].
      constructor; [exact Hxy|].
      rewrite Forall_forall in Hall |- *.
      intros z Hz. eapply le_trans; [exact Hxy | now apply Hall].
    + constructor; [exact IH|].
      rewrite Forall_forall in Hall |- *.
      intros z Hz.
      apply (Permutation_in _ (Permutation_sym (insert_by_perm x l))) in Hz.
      destruct Hz as [<-|Hz]; [|now apply Hall].
      destruct (le_total x y) as [E|E]; [congruence | exact E].
Qed.

Lemma sort_by_sorted (l : list T) :
  StronglySorted (fun a b => le a b = true) (sort_by le l).
Proof.
  induction l as [|x l IH]; simpl.
  - constructor.
  - now apply insert_by_sorted.
Qed.
End SortByFacts.

(** A sorted list stays sorted when an item that follows all of it is
    appended. *)
Lemma StronglySorted_snoc {T : Type} (R : T -> T -> Prop) (l : list T) (x : T) :
  StronglySorted R l -> Forall (fun y => R y x) l -> StronglySorted R (l ++ [x]).
Proof.
  induction 1 as [|y l Hs IH Hall]; simpl; intros Hx.
  - repeat constructor.
  - inversion Hx as [|? ? Hyx Hlx]; subst.
    constructor; [now apply IH|].
    apply Forall_app; split; [exact Hall | now repeat constructor].
Qed.

(** Reversal turns a sorted list into one sorted for the converse order. *)
Lemma StronglySorted_rev {T : Type} (R : T -> T -> Prop) (l : list T) :
  StronglySorted R l -> StronglySorted (fun a b => R b a) (rev l).
Proof.
  induction 1 as [|x l Hs IH Hall]; simpl.
  - constructor.
  - apply StronglySorted_snoc; [exact IH|].
    rewrite Forall_forall in Hall |- *.
    intros z Hz. apply Hall. now apply in_rev.
Qed.

(** A map that carries one order to another keeps a list sorted. *)
Lemma StronglySorted_map {T U : Type} (R : T -> T -> Prop) (S : U -> U -> Prop)
      (f : T -> U) (l : list T) :
  (forall a b, R a b -> S (f a) (f b)) ->
  StronglySorted R l -> StronglySorted S (map f l).
Proof.
  intros Hf. induction 1 as [|x l Hs IH Hall]; simpl; constructor.
  - exact IH.
  - rewrite Forall_forall in Hall |- *.
    intros y Hy. apply in_map_iff in Hy as (z & <- & Hz). now apply Hf, Hall.
Qed.

Lemma StronglySorted_weaken {T : Type} (R S : T -> T -> Prop) (l : list T) :
  (forall a b, R a b -> S a b) -> StronglySorted R l -> StronglySorted S l.
Proof.
  intros HRS Hl. rewrite <- (map_id l). now apply StronglySorted_map with (R := R).
Qed.

Lemma StronglySorted_seq (a k : nat) : StronglySorted lt (seq a k).
Proof.
  revert a. induction k as [|k IH]; intros a; simpl; constructor.
  - apply IH.
  - rewrite Forall_forall. intros y Hy. apply in_seq in Hy. lia.
Qed.

(** ** The order of the reals as a boolean *)

Lemma Rleb_true (x y : R) : Rleb x y = true <-> (x <= y)%R.
Proof. unfold Rleb. destruct (Rle_dec x y); split; intros; try congruence; try assumption. Qed.

Lemma Rleb_total (x y : R) : Rleb x y = true \/ Rleb y x = true.
Proof. rewrite !Rleb_true. lra. Qed.

Lemma Rleb_trans (x y z : R) : Rleb x y = true -> Rleb y z = true -> Rleb x z = true.
Proof. rewrite !Rleb_true. lra. Qed.

(** [np.sort] on reals: a sorted rearrangement of the input. *)
Lemma np_sort_perm (xs : list R) : Permutation xs (np_sort xs).
Proof. apply sort_by_perm. Qed.

Lemma np_sort_sorted (xs : list R) : StronglySorted Rle (np_sort xs).
Proof.
  apply StronglySorted_weaken with (R := fun a b => Rleb a b = true).
  - intros a b. apply Rleb_true.
  - apply sort_by_sorted; [exact Rleb_total | exact Rleb_trans].
Qed.

(** ** The run of [analise_recorrencia] *)

Section AnaliseFacts.
Context {A : Type} `{Arith A}.
Variable lib : Scipy A.

Lemma deref_app_l (s l : store A) (a : ndarray) :
  a < length s -> deref (s ++ l) a = deref s a.
Proof. intros Ha. unfold deref. now apply app_nth1. Qed.

Lemma deref_snoc (s : store A) (c : cell A) : deref (s ++ [c]) (length s) = c.
Proof. unfold deref. rewrite app_nth2 by lia. now rewrite Nat.sub_diag. Qed.

(** Reads through the arrays appended to a store. *)
Ltac store_simpl :=
  repeat (rewrite deref_snoc
          || rewrite deref_app_l by (rewrite ?length_app; simpl; lia));
  cbn [floats ints].

Lemma inverso_of_Z (l : list Z) :
  inverso (map of_Z l) = map (fun T => div one (of_Z T)) l.
Proof. unfold inverso. now rewrite map_map. Qed.

(** The analysis never fails by itself: it returns the dictionary when
    the fit returns, and raises what the fit raises.  In both cases the
    store is the old one followed by the new arrays. *)
Lemma analise_recorrencia_run (s : store A) (a : ndarray) :
  a < length s ->
  analise_recorrencia lib a s =
  let xs := floats (deref s a) in
  match gumbel_r_fit lib xs with
  | inl e => (inl e, s ++ arrays_da_ordenacao xs)
  | inr (loc, scale) =>
      (inr {| media := np_mean xs;
              desvio_padrao := np_std 1 xs;
              n_amostras := len xs;
              parametros_gumbel := {| loc := loc; scale := scale |};
              tempos_recorrencia := length s + 4;
              totais_estimados := length s + 6;
              totais_observados := a |},
       s ++ arrays_da_ordenacao xs ++ arrays_da_recorrencia lib loc scale)
  end.
Proof.
  intros Ha.
  unfold analise_recorrencia, bind, ler, ler_int, novo, chamar, ret.
  cbn zeta. store_simpl.
  destruct (gumbel_r_fit lib (floats (deref s a))) as [e|[l sc]].
  - unfold arrays_da_ordenacao, totais_ordenados, P_weibull, T_empirico, m_postos.
    now rewrite <- !app_assoc.
  - store_simpl. rewrite inverso_of_Z.
    unfold arrays_da_ordenacao, arrays_da_recorrencia, totais_ordenados,
      P_weibull, T_empirico, m_postos.
    rewrite <- !app_assoc. cbn [app].
    f_equal. f_equal. f_equal.
    + rewrite !length_app. simpl. lia.
    + rewrite !length_app. simpl. lia.
Qed.

(** The same for the call of line 127. *)
Lemma analisar_run (xs : list A) :
  analisar lib xs =
  match gumbel_r_fit lib xs with
  | inl e => (inl e, FloatArr xs :: arrays_da_ordenacao xs)
  | inr (loc, scale) =>
      (inr {| media := np_mean xs;
              desvio_padrao := np_std 1 xs;
              n_amostras := len xs;
              parametros_gumbel := {| loc := loc; scale := scale |};
              tempos_recorrencia := 5;
              totais_estimados := 7;
              totais_observados := 0 |},
       FloatArr xs :: arrays_da_ordenacao xs ++ arrays_da_recorrencia lib loc scale)
  end.
Proof.
  unfold analisar. rewrite analise_recorrencia_run by (simpl; lia).
  reflexivity.
Qed.
End AnaliseFacts.

(** ** Degenerate samples (C1) *)

(** C1, as stated, does not hold: [FitDegenerate] is not raised on [150.0],
    nor on [150.0, 150.0], whatever the library does.  The analysis has no
    check of its own: with a fit that returns parameters it returns the
    dictionary, and with a fit that raises it raises the error of the fit. *)
Lemma analise_sem_FitDegenerate :
  ~ (forall lib : Scipy float,
        raises "FitDegenerate"%string (fst (analisar lib [150]%float))) /\
  ~ (forall lib : Scipy float,
        raises "FitDegenerate"%string (fst (analisar lib [150; 150]%float))) /\
  ~ raises "FitDegenerate"%string (fst (analisar fit_que_falha [150]%float)) /\
  ~ raises "FitDegenerate"%string (fst (analisar fit_que_falha [150; 150]%float)).
Proof.
  repeat split.
  - intros Hall. destruct (Hall fit_que_retorna) as [e [He _]].
    rewrite analisar_run in He. cbn in He. discriminate He.
  - intros Hall. destruct (Hall fit_que_retorna) as [e [He _]].
    rewrite analisar_run in He. cbn in He. discriminate He.
  - intros [e [He Hc]]. rewrite analisar_run in He. cbn in He.
    injection He as <-. cbn in Hc. discriminate Hc.
  - intros [e [He Hc]]. rewrite analisar_run in He. cbn in He.
    injection He as <-. cbn in Hc. discriminate Hc.
Qed.

(** C1, amended: on [150.0] and on [150.0, 150.0] the analysis checks neither
    the sample size nor the variance.  It computes the mean 150 and the
    standard deviation (NaN for one total, 0 for two equal totals), passes
    the totals to [gumbel_r.fit], and returns the dictionary with the fitted
    parameters when the fit returns them; when the fit raises, that very
    exception is the outcome. *)
Theorem analise_amostra_degenerada (lib : Scipy float) :
  fst (analisar lib [150]%float) =
    match gumbel_r_fit lib [150]%float with
    | inl e => inl e
    | inr (l, sc) =>
        inr {| media := 150%float; desvio_padrao := PrimFloat.nan; n_amostras := 1;
               parametros_gumbel := {| loc := l; scale := sc |};
               tempos_recorrencia := 5; totais_estimados := 7;
               totais_observados := 0 |}
    end
  /\
  fst (analisar lib [150; 150]%float) =
    match gumbel_r_fit lib [150; 150]%float with
    | inl e => inl e
    | inr (l, sc) =>
        inr {| media := 150%float; desvio_padrao := 0%float; n_amostras := 2;
               parametros_gumbel := {| loc := l; scale := sc |};
               tempos_recorrencia := 5; totais_estimados := 7;
               totais_observados := 0 |}
    end.
Proof.
  split; rewrite analisar_run.
  - destruct (gumbel_r_fit lib [150]%float) as [e|[l sc]]; [reflexivity|].
    cbn [fst].
    replace (np_mean [150]%float) with 150%float by (vm_compute; reflexivity).
    replace (np_std 1 [150]%float) with PrimFloat.nan by (vm_compute; reflexivity).
    reflexivity.
  - destruct (gumbel_r_fit lib [150; 150]%float) as [e|[l sc]]; [reflexivity|].
    cbn [fst].
    replace (np_mean [150; 150]%float) with 150%float by (vm_compute; reflexivity).
    replace (np_std 1 [150; 150]%float) with 0%float by (vm_compute; reflexivity).
    reflexivity.
Qed.

(** ** The recurrence estimates (C2) *)

(** C2: whatever parameters the fit returns, the estimates [Q_T] are the
    quantile function at [1 - 1/T], one for each [T] of the target set
    2, 5, 10, 25, 50, 100, 1000, 10000 and in the same, ascending, order;
    the dictionary returned by the analysis holds exactly these two arrays. *)
Theorem estimativas_por_T_alvo (A : Type) (HA : Arith A) (lib : Scipy A) :
  T_alvo = [2; 5; 10; 25; 50; 100; 1000; 10000]%Z /\
  StronglySorted Z.lt T_alvo /\
  (forall l sc : A,
      Forall2 (fun T Q => Q = gumbel_r_ppf lib (sub one (div one (of_Z T))) l sc)
              T_alvo (Q_T lib l sc)) /\
  (forall xs : list A,
      match gumbel_r_fit lib xs with
      | inl e => fst (analisar lib xs) = inl e
      | inr (l, sc) =>
          exists r s', analisar lib xs = (inr r, s') /\
                       parametros_gumbel r = {| loc := l; scale := sc |} /\
                       deref s' (tempos_recorrencia r) = IntArr T_alvo /\
                       deref s' (totais_estimados r) = FloatArr (Q_T lib l sc)
      end).
Proof.
  split; [reflexivity|]. split.
  - unfold T_alvo. repeat constructor.
  - split.
    + intros l sc. unfold Q_T, P_alvo, T_alvo. cbn [map]. repeat constructor.
    + intros xs. rewrite analisar_run.
      destruct (gumbel_r_fit lib xs) as [e|[l sc]]; [reflexivity|].
      eexists. eexists. split; [reflexivity|]. repeat split.
Qed.

(** ** Mean and sample standard deviation (C3) *)

(** Unfolds the arithmetic of the carrier at the reals. *)
Ltac real_arith :=
  unfold nan, notna, maximum, zero, one in *;
  cbn [of_Z add sub mul div sqrt leb R_arith] in *.

Lemma len_cons {X : Type} (x : X) (l : list X) : len (x :: l) = (len l + 1)%Z.
Proof. unfold len. cbn [length]. lia. Qed.

Lemma len_nonneg {X : Type} (l : list X) : (0 <= len l)%Z.
Proof. unfold len. lia. Qed.

Lemma np_sum_nil_R : np_sum (@nil R) = 0%R.
Proof. reflexivity. Qed.

(** C3: the standard deviation of the analysis is [np.std(..., ddof=1)], the
    square root of the sum of the squared deviations from the mean over
    [n - 1]; on the sample 100, 200, 300 the mean is 200 and the standard
    deviation is 100, in exact arithmetic and in binary64 alike, and these
    are the values the analysis returns under 'media' and 'desvio_padrao'. *)
Theorem desvio_padrao_amostral :
  (forall xs : list R,
      np_std 1 xs =
      R_sqrt.sqrt
        (np_sum (map (fun v => (v - np_mean xs) * (v - np_mean xs)) xs)
         / (IZR (len xs) - 1)))%R /\
  (np_mean [100; 200; 300] = 200 /\ np_std 1 [100; 200; 300] = 100)%R /\
  (np_mean [100; 200; 300] = 200 /\ np_std 1 [100; 200; 300] = 100)%float /\
  (forall lib : Scipy float,
      match gumbel_r_fit lib [100; 200; 300]%float with
      | inl e => fst (analisar lib [100; 200; 300]%float) = inl e
      | inr _ =>
          exists r s', analisar lib [100; 200; 300]%float = (inr r, s') /\
                       media r = 200%float /\ desvio_padrao r = 100%float
      end).
Proof.
  split; [|split; [|split]].
  - intros xs. unfold np_std, np_var. cbn zeta. rewrite map_map.
    real_arith. f_equal.
    destruct xs as [|x xs].
    + cbn [map]. rewrite np_sum_nil_R. unfold Rdiv. now rewrite !Rmult_0_l.
    + f_equal. rewrite Z.max_l by (rewrite len_cons; pose proof (len_nonneg xs); lia).
      now rewrite minus_IZR.
  - assert (Hm : np_mean [100; 200; 300]%R = 200%R).
    { unfold np_mean, np_sum. cbn [fold_left len length Z.of_nat Pos.of_succ_nat Pos.succ].
      real_arith. lra. }
    split; [exact Hm|].
    unfold np_std, np_var. cbn zeta. rewrite Hm.
    unfold np_sum. cbn [map fold_left len length Z.of_nat Pos.of_succ_nat Pos.succ Z.sub Z.add Z.opp Z.pos_sub Pos.pred_double Z.max Z.compare].
    real_arith.
    replace ((0 + (100 - 200) * (100 - 200) + (200 - 200) * (200 - 200)
              + (300 - 200) * (300 - 200)) / 2)%R with (100 * 100)%R by lra.
    apply sqrt_square. lra.
  - split; vm_compute; reflexivity.
  - intros lib. rewrite analisar_run.
    destruct (gumbel_r_fit lib [100; 200; 300]%float) as [e|[l sc]]; [reflexivity|].
    eexists. eexists. split; [reflexivity|].
    split; vm_compute; reflexivity.
Qed.

(** ** The input array (C10) *)

(** C10: run on any store with the totals behind a valid reference, the
    analysis leaves every array of that store as it was (the new arrays,
    the sorted copy among them, come after), and when the fit returns, the
    dictionary holds under 'totais_observados' the very reference it was
    given, behind which the totals are unchanged, and under 'n_amostras'
    their number; when the fit raises, its exception is the outcome. *)
Theorem entrada_inalterada (A : Type) (HA : Arith A) (lib : Scipy A)
        (s : store A) (totais_anuais : ndarray) :
  totais_anuais < length s ->
  firstn (length s) (snd (analise_recorrencia lib totais_anuais s)) = s /\
  deref (snd (analise_recorrencia lib totais_anuais s)) totais_anuais
    = deref s totais_anuais /\
  match gumbel_r_fit lib (floats (deref s totais_anuais)) with
  | inl e => fst (analise_recorrencia lib totais_anuais s) = inl e
  | inr _ =>
      exists r, fst (analise_recorrencia lib totais_anuais s) = inr r /\
                totais_observados r = totais_anuais /\
                n_amostras r = len (floats (deref s totais_anuais))
  end.
Proof.
  intros Ha. rewrite analise_recorrencia_run by exact Ha. cbn zeta.
  destruct (gumbel_r_fit lib (floats (deref s totais_anuais))) as [e|[l sc]];
    cbn [fst snd].
  - split; [|split; [|reflexivity]].
    + rewrite firstn_app, Nat.sub_diag, firstn_all. cbn [firstn]. apply app_nil_r.
    + now apply deref_app_l.
  - split; [|split].
    + rewrite firstn_app, Nat.sub_diag, firstn_all. cbn [firstn]. apply app_nil_r.
    + now apply deref_app_l.
    + eexists. split; [reflexivity|]. split; reflexivity.
Qed.

(** An instance: the array [3, 1, 2] is still [3, 1, 2] after the analysis. *)
Lemma entrada_inalterada_witness :
  deref (snd (analise_recorrencia fit_que_retorna 0 [FloatArr [3; 1; 2]%float])) 0
  = FloatArr [3; 1; 2]%float.
Proof.
  refine (proj1 (proj2 (@entrada_inalterada float float_arith fit_que_retorna
                          [FloatArr [3; 1; 2]%float] 0 _))).
  simpl. lia.
Defined.

(** ** The annual summary (C7) *)

Lemma Rleb_refl (x : R) : Rleb x x = true.
Proof. apply Rleb_true. lra. Qed.

Lemma filter_notna_R (l : list R) : filter notna l = l.
Proof.
  induction l as [|x l IH]; [reflexivity|].
  cbn [filter]. unfold notna at 1. cbn [leb R_arith]. now rewrite Rleb_refl, IH.
Qed.

Lemma maximum_Rmax (x y : R) : maximum x y = Rmax x y.
Proof.
  unfold maximum, Rmax. cbn [leb R_arith]. unfold Rleb.
  now destruct (Rle_dec x y).
Qed.

(** C7: for three rows dated in 2020, 2020 and 2021 (whatever the month and
    the day) with totals 10, 20 and 5, the summary has exactly two rows:
    2020 with total 30, maximum 20 and 2 rows counted, then 2021 with total
    5, maximum 5 and 1 row counted; in binary64 and in exact arithmetic. *)
Theorem resumo_2020_2021 (m1 d1 m2 d2 m3 d3 : Z) :
  resumo [ {| Data := {| year := 2020; month := m1; day := d1 |}; Total := 10%float |};
           {| Data := {| year := 2020; month := m2; day := d2 |}; Total := 20%float |};
           {| Data := {| year := 2021; month := m3; day := d3 |}; Total := 5%float |} ]
  = [ {| Ano := 2020; Total_Anual := 30%float; Chuva_Maxima := 20%float;
         Meses_com_Dados := 2 |};
      {| Ano := 2021; Total_Anual := 5%float; Chuva_Maxima := 5%float;
         Meses_com_Dados := 1 |} ]
  /\
  resumo [ {| Data := {| year := 2020; month := m1; day := d1 |}; Total := 10%R |};
           {| Data := {| year := 2020; month := m2; day := d2 |}; Total := 20%R |};
           {| Data := {| year := 2021; month := m3; day := d3 |}; Total := 5%R |} ]
  = [ {| Ano := 2020; Total_Anual := 30%R; Chuva_Maxima := 20%R;
         Meses_com_Dados := 2 |};
      {| Ano := 2021; Total_Anual := 5%R; Chuva_Maxima := 5%R;
         Meses_com_Dados := 1 |} ].
Proof.
  split.
  - vm_compute. reflexivity.
  - unfold resumo.
    match goal with |- map _ (anos ?d) = _ =>
      replace (anos d) with [2020; 2021]%Z by (vm_compute; reflexivity);
      cbn [map];
      replace (grupo d 2020) with [10; 20]%R by reflexivity;
      replace (grupo d 2021) with [5]%R by reflexivity
    end.
    unfold agg_sum, agg_max, agg_count. rewrite !filter_notna_R.
    cbn [fold_left]. rewrite maximum_Rmax, Rmax_right by lra.
    unfold np_sum. cbn [fold_left]. real_arith.
    replace (0 + 10 + 20)%R with 30%R by lra.
    replace (0 + 5)%R with 5%R by lra.
    reflexivity.
Qed.

(** ** Ranks and plotting positions (C8, C4, C9) *)

Lemma m_postos_seq (n : Z) :
  m_postos n = map (fun i => (1 + Z.of_nat i)%Z) (seq 0 (Z.to_nat n)).
Proof.
  unfold m_postos, np_arange. do 3 f_equal. lia.
Qed.

Lemma m_postos_In (n m : Z) :
  In m (m_postos n) <-> (1 <= m <= n)%Z.
Proof.
  rewrite m_postos_seq, in_map_iff. split.
  - intros (i & <- & Hi). apply in_seq in Hi. lia.
  - intros Hm. exists (Z.to_nat (m - 1)). split; [lia|]. apply in_seq. lia.
Qed.

Lemma m_postos_sorted (n : Z) :
  StronglySorted (fun a b => 1 <= a < b)%Z (m_postos n).
Proof.
  rewrite m_postos_seq.
  apply StronglySorted_map with (R := lt); [intros a b Hab; lia|].
  apply StronglySorted_seq.
Qed.

Lemma m_postos_length (n : Z) :
  length (m_postos n) = Z.to_nat n.
Proof. rewrite m_postos_seq, length_map. apply length_seq. Qed.

Lemma Forall2_map_in {T U : Type} (P : T -> U -> Prop) (f : T -> U) (l : list T) :
  (forall x, In x l -> P x (f x)) -> Forall2 P l (map f l).
Proof.
  induction l as [|x l IH]; intros Hf; cbn [map]; constructor.
  - apply Hf. now left.
  - apply IH. intros y Hy. apply Hf. now right.
Qed.

(** C8: the plotting positions [P] of a sample of [n] totals are, rank by
    rank, m/(n+1) for the ranks m = 1, ..., n, and each lies strictly between
    0 and 1: in exact arithmetic for every [n], and also as computed in
    binary64 for the sample sizes 1 to 200. *)
Theorem posicao_de_plotagem_entre_0_e_1 (n : Z) :
  (forall m : Z, In m (m_postos n) <-> (1 <= m <= n)%Z) /\
  Forall2 (fun m p => p = IZR m / IZR (n + 1) /\ 0 < p < 1)%R
          (m_postos n) (P_weibull n) /\
  forallb (fun k => forallb entre_0_e_1 (P_weibull k)) (np_arange 1 201) = true.
Proof.
  split; [intros m; apply m_postos_In|].
  split; [|vm_compute; reflexivity].
  unfold P_weibull, weibull. apply Forall2_map_in.
  intros m Hm. apply m_postos_In in Hm. real_arith.
  split; [reflexivity|].
  assert (H1 : (1 <= IZR m)%R) by (apply IZR_le; lia).
  assert (H2 : (IZR m < IZR (n + 1))%R) by (apply IZR_lt; lia).
  split.
  - apply Rdiv_lt_0_compat; lra.
  - apply Rmult_lt_reg_r with (r := IZR (n + 1)); [lra|].
    unfold Rdiv. rewrite Rmult_assoc, Rinv_l by lra. lra.
Qed.

(** The empirical return periods of a sample of [n] totals, rank by rank. *)
Lemma T_empirico_map (n : Z) :
  T_empirico (A := R) n = map (fun m => 1 / (IZR m / IZR (n + 1)))%R (m_postos n).
Proof.
  unfold T_empirico, inverso, P_weibull, weibull. rewrite map_map. reflexivity.
Qed.

Lemma T_empirico_length (n : Z) : length (T_empirico (A := R) n) = Z.to_nat n.
Proof. rewrite T_empirico_map, length_map. apply m_postos_length. Qed.

Lemma T_empirico_decreasing (n : Z) : StronglySorted Rgt (T_empirico (A := R) n).
Proof.
  rewrite T_empirico_map.
  destruct (Z_le_gt_dec n 0) as [Hn|Hn].
  - rewrite m_postos_seq. replace (Z.to_nat n) with 0%nat by lia. constructor.
  - apply StronglySorted_map with (R := fun a b => (1 <= a < b)%Z);
      [|apply m_postos_sorted].
    intros a b [Ha Hab].
    assert (H1 : (1 <= IZR a)%R) by (apply IZR_le; lia).
    assert (H2 : (IZR a < IZR b)%R) by (apply IZR_lt; lia).
    assert (H3 : (0 < IZR (n + 1))%R) by (apply IZR_lt; lia).
    unfold Rgt.
    replace (1 / (IZR b / IZR (n + 1)))%R with (IZR (n + 1) / IZR b)%R by (field; lra).
    replace (1 / (IZR a / IZR (n + 1)))%R with (IZR (n + 1) / IZR a)%R by (field; lra).
    unfold Rdiv. apply Rmult_lt_compat_l; [exact H3|].
    apply Rinv_lt_contravar; [nra | exact H2].
Qed.

Lemma totais_ordenados_perm (xs : list R) : Permutation (totais_ordenados xs) xs.
Proof.
  unfold totais_ordenados. apply Permutation_sym.
  eapply perm_trans; [apply np_sort_perm | apply Permutation_rev].
Qed.

Lemma totais_ordenados_sorted (xs : list R) : StronglySorted Rge (totais_ordenados xs).
Proof.
  unfold totais_ordenados.
  apply StronglySorted_weaken with (R := fun a b => (b <= a)%R).
  - intros a b. apply Rle_ge.
  - apply StronglySorted_rev with (R := Rle). apply np_sort_sorted.
Qed.

Lemma combine_fst_snd {T U : Type} (l1 : list T) (l2 : list U) :
  length l1 = length l2 ->
  map fst (combine l1 l2) = l1 /\ map snd (combine l1 l2) = l2.
Proof.
  revert l2. induction l1 as [|x l1 IH]; intros [|y l2] Hlen; try discriminate.
  - now split.
  - cbn [combine map fst snd]. destruct (IH l2) as [E1 E2]; [now injection Hlen|].
    now rewrite E1, E2.
Qed.

(** C4: for every sequence of [n] annual totals, the ranking yields [n]
    empirical points; their totals are the input in descending order (a
    rearrangement of the input, each total at least the next ones); their
    return periods are 1/(m/(n+1)) for the ranks m = 1, ..., n and each is
    strictly greater than all the later ones (in exact arithmetic; as
    computed in binary64 they decrease strictly too, for the sample sizes 1
    to 200). *)
Theorem ordenacao_empirica (totais_anuais : list R) :
  length (pontos_empiricos totais_anuais) = length totais_anuais /\
  map snd (pontos_empiricos totais_anuais) = totais_ordenados totais_anuais /\
  Permutation (totais_ordenados totais_anuais) totais_anuais /\
  StronglySorted Rge (totais_ordenados totais_anuais) /\
  map fst (pontos_empiricos totais_anuais) = T_empirico (len totais_anuais) /\
  Forall2 (fun m t => t = 1 / (IZR m / IZR (len totais_anuais + 1)))%R
          (m_postos (len totais_anuais)) (T_empirico (len totais_anuais)) /\
  StronglySorted Rgt (T_empirico (len totais_anuais)) /\
  forallb (fun k => decrescente (T_empirico k)) (np_arange 1 201) = true.
Proof.
  assert (Hlen : length (T_empirico (A := R) (len totais_anuais))
                 = length (totais_ordenados totais_anuais)).
  { rewrite T_empirico_length, (Permutation_length (totais_ordenados_perm totais_anuais)).
    unfold len. lia. }
  destruct (combine_fst_snd _ _ Hlen) as [Hfst Hsnd].
  unfold pontos_empiricos.
  split; [|split; [|split; [|split; [|split; [|split; [|split]]]]]].
  - rewrite length_combine, Hlen, Nat.min_id.
    apply Permutation_length, totais_ordenados_perm.
  - exact Hsnd.
  - apply totais_ordenados_perm.
  - apply totais_ordenados_sorted.
  - exact Hfst.
  - rewrite T_empirico_map. apply Forall2_map_in. reflexivity.
  - apply T_empirico_decreasing.
  - vm_compute. reflexivity.
Qed.

(** The sample 1000, 1200, 900, 1500, 1100 in binary64: the largest total,
    1500, comes first, with plotting position 1/6 and return period 6. *)
Example amostra_de_cinco_totais :
  hd_error (pontos_empiricos [1000; 1200; 900; 1500; 1100]%float)
    = Some (6, 1500)%float /\
  hd_error (P_weibull 5) = Some (1 / 6)%float.
Proof. split; vm_compute; reflexivity. Qed.



(** ** The Gumbel quantiles in exact arithmetic (C5, C6) *)

Section GumbelFacts.
Local Open Scope R_scope.
Import gumbel_r.




(** ... and the quantile function undoes the distribution function. *)
Lemma ppf_cdf (loc scale x : R) :
  0 < scale -> ppf (cdf x loc scale) loc scale = x.
Proof.
  intros Hs. unfold cdf, ppf.
  rewrite ln_exp, Ropp_involutive, ln_exp. field. lra.
Qed.





End GumbelFacts.





(** * Further properties of the code *)

(** ** Lists of years *)

Lemma str_eqb_eq (a b : str) : str_eqb a b = true <-> a = b.
Proof.
  revert b. induction a as [|x a IH]; intros [|y b]; cbn [str_eqb];
    try (split; [discriminate | discriminate]); try tauto.
  rewrite andb_true_iff, Ascii.eqb_eq, IH. split.
  - intros [-> ->]. reflexivity.
  - intros E. injection E as -> ->. now split.
Qed.

Lemma comprehension_Some {X Y : Type} (f : X -> option Y) (l : list X) (ys : list Y) :
  comprehension f l = Some ys <-> Forall2 (fun x y => f x = Some y) l ys.
Proof.
  revert ys. induction l as [|x l IH]; intros ys; cbn [comprehension].
  - split; [intros E; injection E as <-; constructor | intros F; now inversion F].
  - destruct (f x) as [y|] eqn:Ex.
    + destruct (comprehension f l) as [zs|] eqn:El.
      * split.
        -- intros E. injection E as <-. constructor; [exact Ex | now apply IH].
        -- intros F. inversion F as [|? y' ? zs' Hy Hzs]; subst.
           rewrite Ex in Hy. injection Hy as <-.
           apply IH in Hzs. now injection Hzs as <-.
      * split; [discriminate|].
        intros F. inversion F as [|? y' ? zs' Hy Hzs]; subst.
        apply IH in Hzs. discriminate Hzs.
    + split; [discriminate|].
      intros F. inversion F as [|? y' ? zs' Hy Hzs]; subst. congruence.
Qed.

Lemma comprehension_None {X Y : Type} (f : X -> option Y) (l : list X) :
  (exists x, In x l /\ f x = None) -> comprehension f l = None.
Proof.
  intros (x & Hin & Hx). induction l as [|z l IH]; [contradiction|].
  cbn [comprehension]. destruct Hin as [->|Hin].
  - now rewrite Hx.
  - destruct (f z); [|reflexivity]. now rewrite (IH Hin).
Qed.

Lemma Zleb_total (x y : Z) : Z.leb x y = true \/ Z.leb y x = true.
Proof. rewrite !Z.leb_le. lia. Qed.

Lemma Zleb_trans (x y z : Z) : Z.leb x y = true -> Z.leb y z = true -> Z.leb x z = true.
Proof. rewrite !Z.leb_le. lia. Qed.

(** A sorted list without repetition is strictly sorted. *)
Lemma StronglySorted_strict (l : list Z) :
  StronglySorted Z.le l -> NoDup l -> StronglySorted Z.lt l.
Proof.
  induction 1 as [|x l Hs IH Hall]; intros Hnd; constructor.
  - apply IH. now inversion Hnd.
  - inversion Hnd as [|? ? Hx Hl]; subst.
    rewrite Forall_forall in Hall |- *.
    intros y Hy. pose proof (Hall y Hy).
    assert (x <> y) by (intros ->; contradiction). lia.
Qed.

(** Two strictly sorted lists with the same items are equal. *)
Lemma StronglySorted_unique (l1 l2 : list Z) :
  StronglySorted Z.lt l1 -> StronglySorted Z.lt l2 ->
  (forall y, In y l1 <-> In y l2) -> l1 = l2.
Proof.
  intros H1. revert l2. induction H1 as [|x l1 Hs IH Hx]; intros l2 H2 Hin.
  - destruct l2 as [|y l2]; [reflexivity|].
    exfalso. apply (proj2 (Hin y)). now left.
  - destruct H2 as [|y l2 Hs2 Hy].
    + exfalso. apply (proj1 (Hin x)). now left.
    + rewrite Forall_forall in Hx, Hy.
      assert (Exy : x = y).
      { destruct (proj1 (Hin x) (or_introl eq_refl)) as [E|Hx2]; [now symmetry|].
        destruct (proj2 (Hin y) (or_introl eq_refl)) as [E|Hy1]; [exact E|].
        pose proof (Hx y Hy1). pose proof (Hy x Hx2). lia. }
      subst y. f_equal. apply IH; [exact Hs2|].
      intros z. split; intros Hz.
      * destruct (proj1 (Hin z) (or_intror Hz)) as [E|Hz2]; [|exact Hz2].
        subst z. pose proof (Hx x Hz). lia.
      * destruct (proj2 (Hin z) (or_intror Hz)) as [E|Hz1]; [|exact Hz1].
        subst z. pose proof (Hy x Hz). lia.
Qed.

Lemma StronglySorted_filter {T : Type} (R : T -> T -> Prop) (p : T -> bool) (l : list T) :
  StronglySorted R l -> StronglySorted R (filter p l).
Proof.
  induction 1 as [|x l Hs IH Hall]; cbn [filter]; [constructor|].
  destruct (p x); [|exact IH].
  constructor; [exact IH|].
  rewrite Forall_forall in Hall |- *.
  intros y Hy. apply filter_In in Hy. now apply Hall.
Qed.

Section AnosFacts.
Context {A : Type}.
Implicit Types (dados : list (Observacao A)).

(** The years of [groupby] and of [sorted(...unique())]: those of the
    rows, each once, in ascending order. *)
Lemma anos_In dados (y : Z) :
  In y (anos dados) <-> exists o, In o dados /\ ano_de o = y.
Proof.
  unfold anos. split.
  - intros Hy.
    apply (Permutation_in _ (Permutation_sym (sort_by_perm Z.leb _))) in Hy.
    apply nodup_In, in_map_iff in Hy. destruct Hy as (o & E & Ho). now exists o.
  - intros (o & Ho & E).
    apply (Permutation_in _ (sort_by_perm Z.leb _)).
    apply nodup_In, in_map_iff. now exists o.
Qed.

Lemma anos_sorted dados : StronglySorted Z.lt (anos dados).
Proof.
  unfold anos. apply StronglySorted_strict.
  - apply StronglySorted_weaken with (R := fun a b => Z.leb a b = true).
    + intros a b. apply Z.leb_le.
    + apply sort_by_sorted; [exact Zleb_total | exact Zleb_trans].
  - apply (Permutation_NoDup (sort_by_perm Z.leb _)). apply NoDup_nodup.
Qed.

(** Dropping the rows of some years drops those years. *)
Lemma anos_filter (keep : Z -> bool) dados :
  anos (filter (fun o => keep (ano_de o)) dados) = filter keep (anos dados).
Proof.
  apply StronglySorted_unique.
  - apply anos_sorted.
  - apply StronglySorted_filter, anos_sorted.
  - intros y. rewrite filter_In, !anos_In. split.
    + intros (o & Ho & E). apply filter_In in Ho. destruct Ho as [Ho Hk].
      split; [now exists o | now rewrite <- E].
    + intros [(o & Ho & E) Hk]. exists o. split; [|exact E].
      apply filter_In. split; [exact Ho | now rewrite E].
Qed.
End AnosFacts.

(** ** The selection of years *)

Section SelecaoFacts.
Context {A : Type} `{Arith A}.
Variable int : str -> option Z.
Implicit Types (dados : list (Observacao A)) (linha : str).

(** The selection keeps or drops whole years. *)
Lemma selecionar_anos_filter linha dados :
  exists keep : Z -> bool,
    selecionar_anos int linha dados = filter (fun o => keep (ano_de o)) dados.
Proof.
  assert (Hall : dados = filter (fun o => (fun _ : Z => true) (ano_de o)) dados).
  { symmetry. apply forallb_filter_id. now apply forallb_forall. }
  unfold selecionar_anos. cbn zeta.
  destruct (str_eqb _ _); [now exists (fun _ => true)|].
  destruct (comprehension _ (split _ _)) as [indices|]; [|now exists (fun _ => true)].
  destruct (comprehension _ indices) as [sel|]; [|now exists (fun _ => true)].
  exists (fun y => existsb (Z.eqb y) sel). reflexivity.
Qed.

Lemma resumo_filter (keep : Z -> bool) dados :
  resumo (filter (fun o => keep (ano_de o)) dados)
  = filter (fun r => keep (Ano r)) (resumo dados).
Proof.
  unfold resumo. rewrite anos_filter.
  induction (anos dados) as [|y l IH]; [reflexivity|].
  cbn [filter map Ano]. destruct (keep y) eqn:Hk; [|exact IH].
  cbn [map]. rewrite IH. f_equal.
  assert (Hg : grupo (filter (fun o => keep (ano_de o)) dados) y = grupo dados y).
  { unfold grupo. f_equal. clear IH. induction dados as [|o d IHd]; [reflexivity|].
    cbn [filter]. destruct (keep (ano_de o)) eqn:Hko; cbn [filter].
    - now rewrite IHd.
    - destruct (Z.eqb (ano_de o) y) eqn:Ey; [|exact IHd].
      apply Z.eqb_eq in Ey. congruence. }
  cbn zeta. now rewrite Hg.
Qed.
End SelecaoFacts.

(** X1: whatever line is typed and however [int] reads it, the rows returned
    by [selecionar_anos] are rows of the data in their original order, kept
    or dropped by whole years: the result is the data filtered by a test on
    the year of the row. *)
Theorem selecao_por_anos_inteiros (A : Type) (int : str -> option Z)
        (linha : str) (dados : list (Observacao A)) :
  exists keep : Z -> bool,
    selecionar_anos int linha dados = filter (fun o => keep (ano_de o)) dados /\
    (forall o, In o (selecionar_anos int linha dados) -> In o dados) /\
    (forall o o', In o dados -> ano_de o = ano_de o' ->
                  In o' (selecionar_anos int linha dados) ->
                  In o (selecionar_anos int linha dados)).
Proof.
  destruct (selecionar_anos_filter int linha dados) as [keep E].
  exists keep. rewrite E. split; [reflexivity|]. split.
  - intros o Ho. now apply filter_In in Ho.
  - intros o o' Ho Ey Ho'. apply filter_In in Ho'. apply filter_In.
    split; [exact Ho|]. rewrite Ey. tauto.
Qed.

(** X2: selecting years and then summarising gives the rows of the summary
    of all the data for the years kept, unchanged and in the same order: the
    selection changes no annual total, maximum or count of a year it keeps. *)
Theorem resumo_da_selecao (A : Type) (HA : Arith A) (int : str -> option Z)
        (linha : str) (dados : list (Observacao A)) :
  exists keep : Z -> bool,
    resumo (selecionar_anos int linha dados)
    = filter (fun r => keep (Ano r)) (resumo dados).
Proof.
  destruct (selecionar_anos_filter int linha dados) as [keep E].
  exists keep. rewrite E. apply resumo_filter.
Qed.

(** ** Python indexing and the typed line *)

Lemma len_length {X : Type} (l : list X) : Z.to_nat (len l) = length l.
Proof. unfold len. lia. Qed.

(** [l[i]] for an index in range, the negative ones wrapping once. *)
Lemma indexar_in_range {X : Type} (l : list X) (i : Z) (d : X) :
  (- len l <= i < len l)%Z ->
  indexar l i = Some (nth (Z.to_nat (i mod len l)) l d).
Proof.
  intros Hi. unfold indexar.
  assert (Hn : (0 < len l)%Z) by lia.
  destruct (Z.leb_spec 0 i) as [H0|H0].
  - destruct (Z.ltb_spec i (len l)) as [H1|H1]; [|lia]. cbn [andb].
    rewrite Z.mod_small by lia.
    apply nth_error_nth'. unfold len in *. lia.
  - cbn [andb]. destruct (Z.leb_spec (- len l) i) as [H1|H1]; [|lia].
    destruct (Z.ltb_spec i 0) as [H2|H2]; [|lia]. cbn [andb].
    replace (i mod len l)%Z with (len l + i)%Z.
    + apply nth_error_nth'. unfold len in *. lia.
    + apply Z.mod_unique with (q := (-1)%Z); lia.
Qed.

Lemma indexar_out_of_range {X : Type} (l : list X) (i : Z) :
  (i < - len l \/ len l <= i)%Z -> indexar l i = None.
Proof.
  intros Hi. unfold indexar. pose proof (len_nonneg l).
  destruct (Z.leb_spec 0 i); destruct (Z.ltb_spec i (len l));
    destruct (Z.leb_spec (- len l) i); destruct (Z.ltb_spec i 0);
    cbn [andb]; try reflexivity; lia.
Qed.

Lemma comprehension_indexar {X : Type} (l : list X) (d : X) (idx : list Z) :
  comprehension (indexar l) idx =
  if forallb (fun i => (- len l <=? i)%Z && (i <? len l)%Z) idx
  then Some (map (fun i => nth (Z.to_nat (i mod len l)) l d) idx)
  else None.
Proof.
  induction idx as [|i idx IH]; [reflexivity|].
  cbn [comprehension forallb map].
  destruct (Z.leb_spec (- len l) i) as [H1|H1];
    destruct (Z.ltb_spec i (len l)) as [H2|H2]; cbn [andb].
  - rewrite (indexar_in_range l d) by lia. rewrite IH.
    now destruct (forallb _ idx).
  - rewrite indexar_out_of_range by lia. reflexivity.
  - rewrite indexar_out_of_range by lia. reflexivity.
  - rewrite indexar_out_of_range by lia. reflexivity.
Qed.

Lemma forallb_map_ext {X Y : Type} (p : Y -> bool) (q : X -> bool) (f : X -> Y)
      (l : list X) :
  (forall x, p (f x) = q x) -> forallb p (map f l) = forallb q l.
Proof.
  intros Hpq. induction l as [|x l IH]; [reflexivity|].
  cbn [map forallb]. now rewrite Hpq, IH.
Qed.

(** X3: when a piece of the typed line, between commas, is not read by
    [int] (ValueError), [selecionar_anos] returns all the data. *)
Theorem selecao_ilegivel (A : Type) (int : str -> option Z)
        (linha : str) (dados : list (Observacao A)) :
  (exists i, In i (split "," (strip linha)) /\ int (strip i) = None) ->
  selecionar_anos int linha dados = dados.
Proof.
  intros (i & Hi & Hint). unfold selecionar_anos. cbn zeta.
  destruct (str_eqb _ _); [reflexivity|].
  rewrite comprehension_None; [reflexivity|].
  exists i. split; [exact Hi|]. now rewrite Hint.
Qed.

(** An instance: the line "1,x" read by the decimal stand-in. *)
Lemma selecao_ilegivel_witness :
  selecionar_anos int_decimal (lit "1,x")
    [ {| Data := {| year := 2020; month := 1; day := 1 |}; Total := 10%float |};
      {| Data := {| year := 2021; month := 1; day := 1 |}; Total := 20%float |} ]
  = [ {| Data := {| year := 2020; month := 1; day := 1 |}; Total := 10%float |};
      {| Data := {| year := 2021; month := 1; day := 1 |}; Total := 20%float |} ].
Proof.
  apply selecao_ilegivel. exists (lit "x"). split; vm_compute; [tauto | reflexivity].
Defined.

(** The selection by numbers, in range or not. *)
Lemma selecionar_anos_numeros (A : Type) (int : str -> option Z)
        (linha : str) (dados : list (Observacao A)) (ks : list Z) :
  str_eqb (lower (strip linha)) (lit "todos") = false ->
  Forall2 (fun i k => int (strip i) = Some k) (split "," (strip linha)) ks ->
  selecionar_anos int linha dados =
  if forallb (fun k => (- len (anos dados) <? k)%Z && (k <=? len (anos dados))%Z) ks
  then filter (isin (map (fun k => nth (Z.to_nat ((k - 1) mod len (anos dados)))
                                       (anos dados) 0%Z) ks)) dados
  else dados.
Proof.
  intros Hnt Hks. unfold selecionar_anos. cbn zeta. rewrite Hnt.
  assert (Hc : comprehension (fun i => option_map (fun k => (k - 1)%Z) (int (strip i)))
                             (split "," (strip linha))
               = Some (map (fun k => (k - 1)%Z) ks)).
  { apply comprehension_Some.
    induction Hks as [|i k l ks' Hik Hl IH]; cbn [map]; constructor.
    - now rewrite Hik.
    - exact IH. }
  rewrite Hc, (comprehension_indexar (anos dados) 0%Z).
  rewrite (forallb_map_ext _
             (fun k => (- len (anos dados) <? k)%Z && (k <=? len (anos dados))%Z)).
  - rewrite map_map. now destruct (forallb _ ks).
  - intros k.
    destruct (Z.leb_spec (- len (anos dados)) (k - 1));
      destruct (Z.ltb_spec (k - 1) (len (anos dados)));
      destruct (Z.ltb_spec (- len (anos dados)) k);
      destruct (Z.leb_spec k (len (anos dados))); cbn [andb]; try reflexivity; lia.
Qed.

(** X4: when the line is not 'todos' and [int] reads every piece, as the
    numbers [ks], the selection is decided by their range alone, [n] being
    the number of distinct years of the data.  If every number lies in
    -n+1 .. n, the rows returned are those whose year is picked by some
    number [k]: the k-th year in ascending order for k >= 1, and for
    k <= 0 the year counted from the end (0 the last year, -1 the one
    before).  If some number lies outside (IndexError), all the data is
    returned. *)
Theorem selecao_por_numeros (A : Type) (int : str -> option Z)
        (linha : str) (dados : list (Observacao A)) (ks : list Z) :
  str_eqb (lower (strip linha)) (lit "todos") = false ->
  Forall2 (fun i k => int (strip i) = Some k) (split "," (strip linha)) ks ->
  selecionar_anos int linha dados =
  if forallb (fun k => (- len (anos dados) <? k)%Z && (k <=? len (anos dados))%Z) ks
  then filter (isin (map (fun k => nth (Z.to_nat ((k - 1) mod len (anos dados)))
                                       (anos dados) 0%Z) ks)) dados
  else dados.
Proof. apply selecionar_anos_numeros. Qed.

(** An instance: "3, 1" picks the third and the first of three years. *)
Lemma selecao_por_numeros_witness :
  selecionar_anos int_decimal (lit "3, 1")
    [ {| Data := {| year := 2021; month := 1; day := 1 |}; Total := 1%float |};
      {| Data := {| year := 2020; month := 1; day := 1 |}; Total := 2%float |};
      {| Data := {| year := 2022; month := 1; day := 1 |}; Total := 3%float |} ]
  = [ {| Data := {| year := 2020; month := 1; day := 1 |}; Total := 2%float |};
      {| Data := {| year := 2022; month := 1; day := 1 |}; Total := 3%float |} ].
Proof.
  rewrite (@selecao_por_numeros float int_decimal (lit "3, 1") _ [3; 1]%Z).
  - vm_compute. reflexivity.
  - vm_compute. reflexivity.
  - vm_compute. repeat constructor.
Defined.

(** ** Stripping and splitting *)

Lemma lstrip_limpo (s : str) : limpo (lstrip s).
Proof.
  induction s as [|c s IH]; cbn [lstrip]; [exact I|].
  destruct (isspace c) eqn:Hc; [exact IH | exact Hc].
Qed.

Lemma lstrip_id (s : str) : limpo s -> lstrip s = s.
Proof. destruct s as [|c s]; cbn [limpo lstrip]; [reflexivity|]. now intros ->. Qed.

Lemma lstrip_spaces (ws s : str) :
  Forall (fun c => isspace c = true) ws -> lstrip (ws ++ s) = lstrip s.
Proof. induction 1 as [|c ws Hc Hws IH]; cbn [app lstrip]; [reflexivity|]. now rewrite Hc. Qed.

(** What [lstrip] removes is a run of spaces. *)
Lemma lstrip_suffix (s : str) :
  exists ws, Forall (fun c => isspace c = true) ws /\ s = ws ++ lstrip s.
Proof.
  induction s as [|c s (ws & Hws & E)]; cbn [lstrip].
  - exists []. now split.
  - destruct (isspace c) eqn:Hc.
    + exists (c :: ws). split; [now constructor|]. cbn [app]. now rewrite <- E.
    + exists []. now split.
Qed.

Lemma rstrip_limpo (s : str) : limpo s -> limpo (rstrip s).
Proof.
  intros Hs. unfold rstrip.
  destruct (lstrip_suffix (rev s)) as (ws & Hws & E).
  apply (f_equal (@rev ascii)) in E. rewrite rev_involutive, rev_app_distr in E.
  destruct (rev (lstrip (rev s))) as [|c r]; [exact I|].
  rewrite E in Hs. exact Hs.
Qed.

Lemma strip_idempotent (s : str) : strip (strip s) = strip s.
Proof.
  unfold strip.
  rewrite (@lstrip_id _ (@rstrip_limpo _ (lstrip_limpo s))).
  unfold rstrip. rewrite rev_involutive.
  now rewrite (@lstrip_id _ (lstrip_limpo _)).
Qed.

(** Spaces around a text that neither starts nor ends with one. *)
Lemma strip_spaces (ws1 w ws2 : str) :
  Forall (fun c => isspace c = true) ws1 ->
  Forall (fun c => isspace c = true) ws2 ->
  limpo w -> limpo (rev w) ->
  strip (ws1 ++ w ++ ws2) = w.
Proof.
  intros H1 H2 Hw Hrw. unfold strip. rewrite (lstrip_spaces _ H1).
  destruct w as [|c w].
  - cbn [app]. unfold rstrip.
    destruct (lstrip_suffix ws2) as (ws & Hws & E).
    assert (Hl : lstrip ws2 = []).
    { clear E Hws ws. induction H2 as [|x l Hx Hl IH]; cbn [lstrip]; [reflexivity|].
      now rewrite Hx. }
    rewrite Hl. cbn [rev lstrip]. reflexivity.
  - rewrite lstrip_id by exact Hw.
    unfold rstrip. rewrite rev_app_distr.
    rewrite lstrip_spaces by (apply Forall_rev; exact H2).
    rewrite (@lstrip_id _ Hrw). apply rev_involutive.
Qed.

Lemma split_no_sep (sep : ascii) (s : str) : ~ In sep s -> split sep s = [s].
Proof.
  induction s as [|c s IH]; intros Hn; cbn [split]; [reflexivity|].
  destruct (Ascii.eqb_spec c sep) as [E|E].
  - exfalso. apply Hn. now left.
  - rewrite IH; [reflexivity|]. intros Hin. apply Hn. now right.
Qed.

Lemma isspace_lower_char (c : ascii) : isspace c = true -> isspace (lower_char c) = true.
Proof.
  destruct c as [[] [] [] [] [] [] [] []]; vm_compute; intros E; congruence.
Qed.

(** The last item of a strictly sorted list is its greatest. *)
Lemma StronglySorted_last (l : list Z) (y : Z) :
  StronglySorted Z.lt l -> In y l -> (y <= last l 0)%Z.
Proof.
  intros Hs. revert y. induction Hs as [|x l Hs IH Hx]; intros y Hy; [contradiction|].
  destruct l as [|z l]; [destruct Hy as [<-|[]]; cbn; lia|].
  change (last (x :: z :: l) 0%Z) with (last (z :: l) 0%Z).
  destruct Hy as [<-|Hy]; [|now apply IH].
  rewrite Forall_forall in Hx.
  pose proof (Hx z (or_introl eq_refl)).
  pose proof (IH z (or_introl eq_refl)). lia.
Qed.

Lemma list_eq_nil_or_snoc {X : Type} (l : list X) :
  l = [] \/ exists l' a, l = l' ++ [a].
Proof.
  destruct l as [|x l]; [now left|]. right.
  destruct (exists_last (l := x :: l)) as (l' & a & E); [discriminate|].
  now exists l', a.
Qed.

Lemma nth_last {X : Type} (l : list X) (d : X) : nth (length l - 1) l d = last l d.
Proof.
  destruct (list_eq_nil_or_snoc l) as [->|(l' & a & ->)]; [reflexivity|].
  rewrite last_last, length_app. cbn [length].
  rewrite app_nth2 by lia.
  replace (length l' + 1 - 1 - length l')%nat with 0%nat by lia. reflexivity.
Qed.

(** X5: typing the single number 0 (a line without a comma that [int] reads as
    0) does not select nothing: the index -1 it becomes is the last item of
    the list of years, so the rows returned are exactly those of the latest
    year of the data. *)
Theorem zero_seleciona_o_ultimo_ano (A : Type) (int : str -> option Z)
        (linha : str) (dados : list (Observacao A)) :
  ~ In ","%char (strip linha) ->
  int (strip linha) = Some 0%Z ->
  str_eqb (lower (strip linha)) (lit "todos") = false ->
  dados <> [] ->
  exists ultimo : Z,
    (exists o, In o dados /\ ano_de o = ultimo) /\
    (forall o, In o dados -> (ano_de o <= ultimo)%Z) /\
    selecionar_anos int linha dados
    = filter (fun o => Z.eqb (ano_de o) ultimo) dados.
Proof.
  intros Hcomma Hint Hnt Hne.
  assert (Hin : forall o, In o dados -> In (ano_de o) (anos dados)).
  { intros o Ho. apply anos_In. now exists o. }
  assert (Hlen : (1 <= len (anos dados))%Z).
  { destruct dados as [|o d]; [contradiction|].
    specialize (Hin o (or_introl eq_refl)).
    unfold len. destruct (anos (o :: d)); [contradiction | cbn [length]; lia]. }
  exists (last (anos dados) 0%Z). split; [|split].
  - apply anos_In.
    destruct (anos dados) as [|y l] eqn:E; [unfold len in Hlen; cbn in Hlen; lia|].
    rewrite <- E.
    destruct (exists_last (l := anos dados)) as (l' & a & El); [now rewrite E|].
    rewrite El, last_last. apply in_or_app. right. now left.
  - intros o Ho. apply StronglySorted_last; [apply anos_sorted | now apply Hin].
  - rewrite (@selecionar_anos_numeros A int linha dados [0%Z]); [| exact Hnt |].
    + cbn [forallb map].
      destruct (Z.ltb_spec (- len (anos dados)) 0); [|lia].
      destruct (Z.leb_spec 0 (len (anos dados))); [|lia]. cbn [andb].
      replace ((0 - 1) mod len (anos dados))%Z with (len (anos dados) - 1)%Z
        by (apply Z.mod_unique with (q := (-1)%Z); lia).
      replace (Z.to_nat (len (anos dados) - 1)) with (length (anos dados) - 1)%nat
        by (unfold len; lia).
      rewrite nth_last. apply filter_ext. intros o.
      unfold isin. cbn [existsb]. apply orb_false_r.
    + rewrite split_no_sep by exact Hcomma.
      constructor; [|constructor]. now rewrite strip_idempotent.
Qed.

(** An instance: the line "0" on rows of 2021, 2020 and 2022. *)
Lemma zero_seleciona_o_ultimo_ano_witness :
  exists ultimo : Z,
    (exists o, In o [ {| Data := {| year := 2021; month := 1; day := 1 |}; Total := 1%float |};
                      {| Data := {| year := 2020; month := 1; day := 1 |}; Total := 2%float |};
                      {| Data := {| year := 2022; month := 1; day := 1 |}; Total := 3%float |} ]
               /\ ano_de o = ultimo) /\
    (forall o, In o [ {| Data := {| year := 2021; month := 1; day := 1 |}; Total := 1%float |};
                      {| Data := {| year := 2020; month := 1; day := 1 |}; Total := 2%float |};
                      {| Data := {| year := 2022; month := 1; day := 1 |}; Total := 3%float |} ]
               -> (ano_de o <= ultimo)%Z) /\
    selecionar_anos int_decimal (lit "0")
      [ {| Data := {| year := 2021; month := 1; day := 1 |}; Total := 1%float |};
        {| Data := {| year := 2020; month := 1; day := 1 |}; Total := 2%float |};
        {| Data := {| year := 2022; month := 1; day := 1 |}; Total := 3%float |} ]
    = filter (fun o => Z.eqb (ano_de o) ultimo)
        [ {| Data := {| year := 2021; month := 1; day := 1 |}; Total := 1%float |};
          {| Data := {| year := 2020; month := 1; day := 1 |}; Total := 2%float |};
          {| Data := {| year := 2022; month := 1; day := 1 |}; Total := 3%float |} ].
Proof.
  apply zero_seleciona_o_ultimo_ano.
  - vm_compute. intros [E|[]]. discriminate E.
  - vm_compute. reflexivity.
  - vm_compute. reflexivity.
  - discriminate.
Defined.

(** X6: 'todos' is recognised whatever the case of its letters and whatever
    the spaces around it: for a line made of spaces, a word that lowers to
    'todos', and spaces, [selecionar_anos] returns all the data, and [int]
    is never consulted. *)
Theorem todos_com_espacos_e_maiusculas (A : Type) (int : str -> option Z)
        (ws1 w ws2 : str) (dados : list (Observacao A)) :
  Forall (fun c => isspace c = true) ws1 ->
  Forall (fun c => isspace c = true) ws2 ->
  lower w = lit "todos" ->
  selecionar_anos int (ws1 ++ w ++ ws2) dados = dados.
Proof.
  intros H1 H2 Hw.
  assert (Hs : strip (ws1 ++ w ++ ws2) = w).
  { apply strip_spaces; [exact H1 | exact H2 | |].
    - destruct w as [|c w]; [exact I|]. cbn [limpo].
      destruct (isspace c) eqn:Hc; [|reflexivity].
      apply isspace_lower_char in Hc. injection Hw as Ec _.
      rewrite Ec in Hc. vm_compute in Hc. discriminate Hc.
    - apply (f_equal (@rev ascii)) in Hw. unfold lower in Hw.
      rewrite <- map_rev in Hw.
      destruct (rev w) as [|c r]; [exact I|]. cbn [limpo].
      destruct (isspace c) eqn:Hc; [|reflexivity].
      apply isspace_lower_char in Hc. injection Hw as Ec _.
      rewrite Ec in Hc. vm_compute in Hc. discriminate Hc. }
  unfold selecionar_anos. cbn zeta. rewrite Hs, Hw.
  replace (str_eqb (lit "todos") (lit "todos")) with true by (symmetry; now apply str_eqb_eq).
  reflexivity.
Qed.

(** An instance: " ToDoS " with the rows unchanged. *)
Lemma todos_com_espacos_e_maiusculas_witness :
  selecionar_anos (fun _ => None) (lit " " ++ lit "ToDoS" ++ lit "  ")
    [ {| Data := {| year := 2020; month := 1; day := 1 |}; Total := 10%float |} ]
  = [ {| Data := {| year := 2020; month := 1; day := 1 |}; Total := 10%float |} ].
Proof.
  apply todos_com_espacos_e_maiusculas.
  - repeat constructor.
  - repeat constructor.
  - vm_compute. reflexivity.
Defined.

(** ** The rows of each year *)

Lemma filter_partition_perm {T : Type} (p : T -> bool) (l : list T) :
  Permutation (filter p l ++ filter (fun x => negb (p x)) l) l.
Proof.
  induction l as [|x l IH]; [constructor|].
  cbn [filter]. destruct (p x); cbn [negb app].
  - now constructor.
  - apply Permutation_sym. eapply perm_trans; [|apply Permutation_middle].
    constructor. now apply Permutation_sym.
Qed.

Section Particao.
Context {A : Type}.
Implicit Types (dados : list (Observacao A)).

(** Dropping the rows of one year leaves the rows of another year. *)
Lemma filter_outro_ano (y y' : Z) dados :
  y <> y' ->
  filter (do_ano y') (filter (fun o => negb (do_ano y o)) dados)
  = filter (do_ano y') dados.
Proof.
  intros Hne. unfold do_ano. induction dados as [|o d IH]; [reflexivity|].
  cbn [filter].
  destruct (Z.eqb_spec (ano_de o) y) as [E1|E1]; cbn [negb filter];
    destruct (Z.eqb_spec (ano_de o) y') as [E2|E2];
    try (now rewrite IH); try exact IH.
  exfalso. apply Hne. congruence.
Qed.

(** Each row belongs to the rows of exactly one year of a list of distinct
    years that holds its year. *)
Lemma particao_por_ano (ys : list Z) dados :
  NoDup ys ->
  (forall o, In o dados -> In (ano_de o) ys) ->
  Permutation (flat_map (fun y => filter (do_ano y) dados) ys) dados.
Proof.
  intros Hnd. revert dados. induction Hnd as [|y ys Hy Hnd IH]; intros dados Hin.
  - destruct dados as [|o d]; [constructor|]. destruct (Hin o (or_introl eq_refl)).
  - cbn [flat_map].
    eapply perm_trans; [|apply (filter_partition_perm (do_ano y))].
    apply Permutation_app_head.
    assert (E : flat_map (fun y' => filter (do_ano y') dados) ys
                = flat_map (fun y' => filter (do_ano y')
                                             (filter (fun o => negb (do_ano y o)) dados)) ys).
    { rewrite !flat_map_concat_map. f_equal. apply map_ext_in. intros y' Hy'.
      symmetry. apply filter_outro_ano. intros ->. contradiction. }
    rewrite E. apply IH.
    intros o Ho. apply filter_In in Ho. destruct Ho as [Ho Hne].
    destruct (Hin o Ho) as [E1|Hys]; [|exact Hys].
    unfold do_ano in Hne. rewrite E1, Z.eqb_refl in Hne. discriminate Hne.
Qed.

Lemma anos_NoDup dados : NoDup (anos dados).
Proof.
  unfold anos. apply (Permutation_NoDup (sort_by_perm Z.leb _)), NoDup_nodup.
Qed.

Lemma particao_anos dados :
  Permutation (flat_map (fun y => filter (do_ano y) dados) (anos dados)) dados.
Proof.
  apply particao_por_ano; [apply anos_NoDup|].
  intros o Ho. apply anos_In. now exists o.
Qed.

(** The rows of a year of the data are not empty. *)
Lemma do_ano_nonempty dados (y : Z) :
  In y (anos dados) -> filter (do_ano y) dados <> [].
Proof.
  intros Hy. apply anos_In in Hy. destruct Hy as (o & Ho & E).
  intros Hnil. assert (Hin : In o (filter (do_ano y) dados)).
  { apply filter_In. split; [exact Ho|]. unfold do_ano. now apply Z.eqb_eq. }
  rewrite Hnil in Hin. contradiction.
Qed.
End Particao.

(** X7: the summary has one row per distinct year of the data, in ascending
    order of the year: the years of its rows increase strictly and are exactly
    the years that occur in the data, so that the analysis is run on as many
    totals as there are distinct years. *)
Theorem anos_do_resumo (A : Type) (HA : Arith A) (dados : list (Observacao A)) :
  StronglySorted Z.lt (map (@Ano A) (resumo dados)) /\
  (forall y, In y (map (@Ano A) (resumo dados))
             <-> exists o, In o dados /\ ano_de o = y) /\
  len (totais_anuais_de (resumo dados)) = len (anos dados).
Proof.
  assert (E : map (@Ano A) (resumo dados) = anos dados).
  { unfold resumo. rewrite map_map. cbn [Ano]. apply map_id. }
  rewrite E. split; [apply anos_sorted|]. split; [apply anos_In|].
  unfold totais_anuais_de, resumo, len. now rewrite !length_map.
Qed.

(** X8: the sheets per year share out the selected rows: one sheet for each
    year of the summary, in the same order; no sheet is empty and each holds
    rows of its year only; and all the sheets together hold every selected
    row exactly once (they are a rearrangement of the selected rows). *)
Theorem abas_por_ano_particao (A : Type) (HA : Arith A)
        (dados_filtrados : list (Observacao A)) :
  map fst (abas_por_ano dados_filtrados) = map (@Ano A) (resumo dados_filtrados) /\
  Forall (fun aba => snd aba <> [] /\
                     Forall (fun o => ano_de o = fst aba) (snd aba))
         (abas_por_ano dados_filtrados) /\
  Permutation (flat_map snd (abas_por_ano dados_filtrados)) dados_filtrados.
Proof.
  unfold abas_por_ano. split; [|split].
  - unfold resumo. rewrite !map_map. reflexivity.
  - rewrite Forall_forall. intros aba Haba.
    apply in_map_iff in Haba. destruct Haba as (y & <- & Hy). cbn [fst snd]. split.
    + now apply (do_ano_nonempty dados_filtrados).
    + rewrite Forall_forall. intros o Ho. apply filter_In in Ho.
      now apply Z.eqb_eq.
  - rewrite flat_map_concat_map, map_map. cbn [snd].
    rewrite <- flat_map_concat_map. apply particao_anos.
Qed.

(** X9: the four columns of the sheet 'Dados para Análise' have the same
    number of items, one per row of the summary, so that the table can be
    built; and the column of ordered totals is a rearrangement of the column
    of observed totals. *)
Theorem dados_para_analise_colunas (A : Type) (HA : Arith A)
        (r : list (ResumoAnual A)) :
  length (col_Ano (dados_para_analise r)) = length r /\
  length (col_Total_Anual_Observado (dados_para_analise r)) = length r /\
  length (col_Total_Anual_Ordenado (dados_para_analise r)) = length r /\
  length (col_Tempo_de_Recorrencia_Empirico (dados_para_analise r)) = length r /\
  Permutation (col_Total_Anual_Ordenado (dados_para_analise r))
              (col_Total_Anual_Observado (dados_para_analise r)).
Proof.
  assert (Hp : Permutation (rev (np_sort (totais_anuais_de r))) (totais_anuais_de r)).
  { apply Permutation_sym. eapply perm_trans; [|apply Permutation_rev].
    apply sort_by_perm. }
  cbn [dados_para_analise col_Ano col_Total_Anual_Observado col_Total_Anual_Ordenado
       col_Tempo_de_Recorrencia_Empirico].
  split; [apply length_map|]. split; [apply length_map|]. split; [|split; [|exact Hp]].
  - rewrite (Permutation_length Hp). apply length_map.
  - unfold Tempo_de_Recorrencia_Empirico, np_arange. rewrite !length_map, length_seq.
    unfold len. lia.
Qed.

(** ** Sums over the years *)

Lemma Rsum_cons (x : R) (l : list R) : Rsum (x :: l) = (x + Rsum l)%R.
Proof. reflexivity. Qed.


Lemma fold_left_Rplus (l : list R) (a : R) : fold_left Rplus l a = (a + Rsum l)%R.
Proof.
  revert a. induction l as [|x l IH]; intros a; cbn [fold_left].
  - unfold Rsum. cbn [fold_right]. lra.
  - rewrite IH, Rsum_cons. lra.
Qed.

Lemma np_sum_Rsum (l : list R) : np_sum l = Rsum l.
Proof.
  unfold np_sum, zero. cbn [add of_Z R_arith]. rewrite fold_left_Rplus. lra.
Qed.


Lemma Rsum_perm (l1 l2 : list R) : Permutation l1 l2 -> Rsum l1 = Rsum l2.
Proof.
  induction 1 as [|x l1 l2 Hp IH|x y l|l1 l2 l3 H1 IH1 H2 IH2];
    rewrite ?Rsum_cons; try lra; try reflexivity.
Qed.




Lemma Rsum_nonneg (l : list R) : Forall (fun t => 0 <= t)%R l -> (0 <= Rsum l)%R.
Proof.
  induction 1 as [|x l Hx Hl IH]; [unfold Rsum; cbn [fold_right]; lra|].
  rewrite Rsum_cons. lra.
Qed.






(** ** The order of the annual totals *)

(** A list of reals has one sorted rearrangement only. *)
Lemma sorted_perm_unique (l1 l2 : list R) :
  StronglySorted Rle l1 -> StronglySorted Rle l2 -> Permutation l1 l2 -> l1 = l2.
Proof.
  intros H1. revert l2. induction H1 as [|x l1 Hs IH Hx]; intros l2 H2 Hp.
  - now apply Permutation_nil in Hp.
  - destruct H2 as [|y l2 Hs2 Hy].
    + apply Permutation_sym, Permutation_nil in Hp. discriminate Hp.
    + rewrite Forall_forall in Hx, Hy.
      assert (Exy : x = y).
      { assert (Hx2 : In x (y :: l2)) by (apply (Permutation_in _ Hp); now left).
        assert (Hy1 : In y (x :: l1))
          by (apply (Permutation_in _ (Permutation_sym Hp)); now left).
        destruct Hx2 as [E|Hx2]; [now symmetry|].
        destruct Hy1 as [E|Hy1]; [exact E|].
        pose proof (Hx y Hy1). pose proof (Hy x Hx2). lra. }
      subst y. f_equal. apply IH; [exact Hs2|].
      now apply Permutation_cons_inv with (a := x).
Qed.

Lemma np_sort_of_perm (xs ys : list R) : Permutation xs ys -> np_sort xs = np_sort ys.
Proof.
  intros Hp. apply sorted_perm_unique; try apply np_sort_sorted.
  eapply perm_trans; [apply Permutation_sym, np_sort_perm|].
  eapply perm_trans; [exact Hp | apply np_sort_perm].
Qed.

Lemma np_mean_of_perm (xs ys : list R) : Permutation xs ys -> np_mean xs = np_mean ys.
Proof.
  intros Hp. unfold np_mean, len.
  now rewrite !np_sum_Rsum, (Rsum_perm Hp), (Permutation_length Hp).
Qed.

(** X12: in exact arithmetic the order in which the annual totals arrive does
    not matter to the statistics of the analysis: two arrays that hold the
    same totals in different orders have the same mean, the same sample
    standard deviation, the same ordered totals and the same empirical
    points. *)
Theorem ordem_dos_totais (xs ys : list R) :
  Permutation xs ys ->
  np_mean xs = np_mean ys /\
  np_std 1 xs = np_std 1 ys /\
  totais_ordenados xs = totais_ordenados ys /\
  pontos_empiricos xs = pontos_empiricos ys.
Proof.
  intros Hp. pose proof (np_mean_of_perm Hp) as Hm.
  split; [exact Hm|]. split; [|split].
  - unfold np_std, np_var. cbn zeta. rewrite Hm.
    rewrite !np_sum_Rsum. unfold len. rewrite (Permutation_length Hp).
    do 2 f_equal. apply Rsum_perm. now do 2 apply Permutation_map.
  - unfold totais_ordenados. now rewrite (np_sort_of_perm Hp).
  - unfold pontos_empiricos, totais_ordenados, len.
    now rewrite (np_sort_of_perm Hp), (Permutation_length Hp).
Qed.

(** An instance: 3, 1, 2 and 1, 2, 3. *)
Lemma ordem_dos_totais_witness :
  np_mean [3; 1; 2]%R = np_mean [1; 2; 3]%R /\
  np_std 1 [3; 1; 2]%R = np_std 1 [1; 2; 3]%R /\
  totais_ordenados [3; 1; 2]%R = totais_ordenados [1; 2; 3]%R /\
  pontos_empiricos [3; 1; 2]%R = pontos_empiricos [1; 2; 3]%R.
Proof.
  apply ordem_dos_totais.
  apply (Permutation_cons_app [1; 2]%R []%list 3%R).
  rewrite app_nil_r. apply Permutation_refl.
Defined.

(** X13: in exact arithmetic, for a sample of n >= 1 totals the largest total
    gets the return period n + 1, and every empirical return period is
    greater than 1 and at most n + 1. *)
Theorem T_empirico_limites (n : Z) :
  (1 <= n)%Z ->
  hd_error (T_empirico (A := R) n) = Some (IZR n + 1)%R /\
  Forall (fun t => 1 < t <= IZR n + 1)%R (T_empirico (A := R) n).
Proof.
  intros Hn. rewrite T_empirico_map.
  assert (Hn1 : (IZR (n + 1) = IZR n + 1)%R) by apply plus_IZR.
  assert (Hr : (1 <= IZR n)%R) by (apply IZR_le; exact Hn).
  split.
  - rewrite m_postos_seq.
    destruct (Z.to_nat n) as [|k] eqn:Ek; [lia|].
    cbn [seq map hd_error Z.of_nat Z.add]. f_equal. rewrite Hn1. field. lra.
  - rewrite Forall_forall. intros t Ht. apply in_map_iff in Ht.
    destruct Ht as (m & <- & Hm). apply m_postos_In in Hm.
    assert (H1 : (1 <= IZR m)%R) by (apply IZR_le; lia).
    assert (H2 : (IZR m <= IZR n)%R) by (apply IZR_le; lia).
    replace (1 / (IZR m / IZR (n + 1)))%R with ((IZR n + 1) / IZR m)%R
      by (rewrite Hn1; field; lra).
    split.
    + apply Rmult_lt_reg_r with (r := IZR m); [lra|].
      unfold Rdiv. rewrite Rmult_assoc, Rinv_l by lra. lra.
    + apply Rmult_le_reg_r with (r := IZR m); [lra|].
      unfold Rdiv. rewrite Rmult_assoc, Rinv_l by lra. nra.
Qed.

(** An instance: five totals. *)
Lemma T_empirico_limites_witness :
  hd_error (T_empirico (A := R) 5) = Some (IZR 5 + 1)%R /\
  Forall (fun t => 1 < t <= IZR 5 + 1)%R (T_empirico (A := R) 5).
Proof. apply T_empirico_limites. lia. Defined.

(** ** Mean and standard deviation of a sample *)

Lemma Rsum_bounds (l : list R) (a b : R) :
  Forall (fun x => a <= x <= b)%R l ->
  (IZR (len l) * a <= Rsum l <= IZR (len l) * b)%R.
Proof.
  induction 1 as [|x l Hx Hl IH].
  - unfold Rsum, len. cbn [fold_right length Z.of_nat]. lra.
  - rewrite Rsum_cons, len_cons, plus_IZR. lra.
Qed.

Lemma Rsum_zero (l : list R) :
  Forall (fun t => 0 <= t)%R l -> Rsum l = 0%R -> Forall (fun t => t = 0%R) l.
Proof.
  induction 1 as [|x l Hx Hl IH]; intros Hs; [constructor|].
  rewrite Rsum_cons in Hs. pose proof (Rsum_nonneg Hl).
  constructor; [lra|]. apply IH. lra.
Qed.

Lemma Rsum_all_zero (l : list R) : Forall (fun t => t = 0%R) l -> Rsum l = 0%R.
Proof.
  induction 1 as [|x l Hx Hl IH]; [reflexivity|]. rewrite Rsum_cons. lra.
Qed.

(** X14: in exact arithmetic, for a sample of at least two totals: the mean
    lies within any bounds that hold of all the totals; the sample standard
    deviation is not negative; and it is 0 exactly when all the totals are
    equal (each equal to the mean). *)
Theorem media_e_desvio (xs : list R) :
  (2 <= length xs)%nat ->
  (forall a b : R, Forall (fun x => a <= x <= b)%R xs -> (a <= np_mean xs <= b)%R) /\
  (0 <= np_std 1 xs)%R /\
  (np_std 1 xs = 0%R <-> Forall (fun x => x = np_mean xs) xs).
Proof.
  intros Hlen.
  assert (Hn : (2 <= IZR (len xs))%R) by (apply IZR_le; unfold len; lia).
  split; [|split].
  - intros a b Hab. pose proof (Rsum_bounds Hab) as Hs.
    unfold np_mean. rewrite np_sum_Rsum. cbn [div of_Z R_arith]. split.
    + apply Rmult_le_reg_r with (r := IZR (len xs)); [lra|].
      unfold Rdiv. rewrite Rmult_assoc, Rinv_l, (Rmult_comm a), Rmult_1_r by lra.
      exact (proj1 Hs).
    + apply Rmult_le_reg_r with (r := IZR (len xs)); [lra|].
      unfold Rdiv. rewrite Rmult_assoc, Rinv_l, (Rmult_comm b), Rmult_1_r by lra.
      exact (proj2 Hs).
  - unfold np_std. cbn [sqrt R_arith]. apply sqrt_pos.
  - unfold np_std, np_var. cbn zeta. rewrite np_sum_Rsum, map_map.
    cbn [sqrt div sub mul of_Z R_arith].
    rewrite Z.max_l by (unfold len; lia). rewrite minus_IZR.
    set (m := np_mean xs).
    set (sq := map (fun v => (v - m) * (v - m))%R xs).
    assert (Hsq : Forall (fun t => 0 <= t)%R sq).
    { unfold sq. rewrite Forall_forall. intros t Ht.
      apply in_map_iff in Ht. destruct Ht as (v & <- & _).
      exact (Rle_0_sqr (v - m)). }
    pose proof (Rsum_nonneg Hsq) as Hs0.
    assert (Hd : (0 < / (IZR (len xs) - 1))%R) by (apply Rinv_0_lt_compat; lra).
    split.
    + intros Hz. apply sqrt_eq_0 in Hz; [|unfold Rdiv; nra].
      assert (Hs : Rsum sq = 0%R) by (unfold Rdiv in Hz; nra).
      pose proof (Rsum_zero Hsq Hs) as Hall.
      unfold sq in Hall. rewrite Forall_map in Hall.
      rewrite Forall_forall in Hall |- *. intros x Hx.
      specialize (Hall x Hx). cbn beta in Hall.
      assert (Hxm : (x - m = 0)%R) by (apply Rsqr_0_uniq; exact Hall). lra.
    + intros Hall.
      assert (Hs : Rsum sq = 0%R).
      { apply Rsum_all_zero. unfold sq. rewrite Forall_map.
        rewrite Forall_forall in Hall |- *. intros x Hx.
        rewrite (Hall x Hx). lra. }
      rewrite Hs. unfold Rdiv. rewrite Rmult_0_l. apply sqrt_0.
Qed.

(** An instance: the totals 150 and 150. *)
Lemma media_e_desvio_witness :
  (forall a b : R, Forall (fun x => a <= x <= b)%R [150; 150]%R
                   -> (a <= np_mean [150; 150]%R <= b)%R) /\
  (0 <= np_std 1 [150; 150]%R)%R /\
  (np_std 1 [150; 150]%R = 0%R
   <-> Forall (fun x => x = np_mean [150; 150]%R) [150; 150]%R).
Proof. apply media_e_desvio. cbn [length]. lia. Defined.

(** ** No rows at all *)


(** ** File names *)

Lemma str_eqb_refl (s : str) : str_eqb s s = true.
Proof. now apply str_eqb_eq. Qed.

Lemma lower_app (a b : str) : lower (a ++ b) = lower a ++ lower b.
Proof. apply map_app. Qed.

Lemma lower_xlsx : lower xlsx = xlsx.
Proof. reflexivity. Qed.

Lemma endswith_app (a suffix : str) : endswith (a ++ suffix) suffix = true.
Proof.
  unfold endswith. rewrite length_app.
  replace (length a + length suffix - length suffix)%nat with (length a) by lia.
  rewrite skipn_app, skipn_all, Nat.sub_diag. cbn [skipn app].
  rewrite str_eqb_refl, andb_true_r. apply Nat.leb_le. lia.
Qed.

Lemma corrigir_saida_endswith (s : str) : endswith (lower (corrigir_saida s)) xlsx = true.
Proof.
  unfold corrigir_saida. destruct (endswith (lower s) xlsx) eqn:E; [exact E|].
  rewrite lower_app, lower_xlsx. apply endswith_app.
Qed.

Lemma corrigir_saida_fixed (s : str) :
  endswith (lower s) xlsx = true -> corrigir_saida s = s.
Proof. intros E. unfold corrigir_saida. now rewrite E. Qed.

(** [os.path.splitext]: the two parts make up the path. *)
Lemma splitext_app (is_sep : ascii -> bool) (p : str) :
  fst (splitext is_sep p) ++ snd (splitext is_sep p) = p.
Proof.
  unfold splitext. cbn zeta.
  destruct (Z.ltb _ _); [|apply app_nil_r].
  destruct (existsb _ _); [|apply app_nil_r].
  cbn [fst snd]. apply firstn_skipn.
Qed.

(** X16: after lines 105-106 the name of the output file always ends in
    '.xlsx', in whatever case: a name that already does is kept as it is, any
    other gets '.xlsx' appended (nothing is removed from it); applying the
    correction twice changes nothing more. *)
Theorem corrigir_saida_xlsx (arquivo_saida : str) :
  endswith (lower (corrigir_saida arquivo_saida)) xlsx = true /\
  (corrigir_saida arquivo_saida = arquivo_saida \/
   corrigir_saida arquivo_saida = arquivo_saida ++ lit ".xlsx") /\
  (corrigir_saida arquivo_saida = arquivo_saida
   <-> endswith (lower arquivo_saida) (lit ".xlsx") = true) /\
  corrigir_saida (corrigir_saida arquivo_saida) = corrigir_saida arquivo_saida.
Proof.
  split; [apply corrigir_saida_endswith|]. split; [|split].
  - unfold corrigir_saida. destruct (endswith _ _); [now left | now right].
  - split; [|apply corrigir_saida_fixed].
    intros E. rewrite <- E. apply corrigir_saida_endswith.
  - apply corrigir_saida_fixed, corrigir_saida_endswith.
Qed.

(** X17: the two names [main] passes on are never empty; the output name ends
    in '.xlsx' in whatever case, so that lines 105-106 of
    [separar_dados_por_ano] leave it as it is; and it is either the name
    typed (or the default), or what [os.path.splitext] keeps of it as the
    root, a prefix of it, followed by '.xlsx'. *)
Theorem argumentos_de_main_xlsx (is_sep : ascii -> bool)
        (linha_entrada linha_saida : str) :
  fst (argumentos_de_main is_sep linha_entrada linha_saida) <> [] /\
  snd (argumentos_de_main is_sep linha_entrada linha_saida) <> [] /\
  endswith (lower (snd (argumentos_de_main is_sep linha_entrada linha_saida))) xlsx
    = true /\
  corrigir_saida (snd (argumentos_de_main is_sep linha_entrada linha_saida))
    = snd (argumentos_de_main is_sep linha_entrada linha_saida) /\
  (snd (argumentos_de_main is_sep linha_entrada linha_saida)
     = ou linha_saida (lit "AnaliseCompleta.xlsx") \/
   exists root ext,
     ou linha_saida (lit "AnaliseCompleta.xlsx") = root ++ ext /\
     snd (argumentos_de_main is_sep linha_entrada linha_saida) = root ++ lit ".xlsx").
Proof.
  unfold argumentos_de_main. cbn zeta. cbn [fst snd].
  set (saida := ou linha_saida (lit "AnaliseCompleta.xlsx")).
  assert (Hend : endswith (lower (if endswith (lower saida) xlsx then saida
                                  else fst (splitext is_sep saida) ++ xlsx)) xlsx = true).
  { destruct (endswith (lower saida) xlsx) eqn:E; [exact E|].
    rewrite lower_app, lower_xlsx. apply endswith_app. }
  split; [|split; [|split; [exact Hend|split]]].
  - unfold ou. destruct linha_entrada; discriminate.
  - destruct (endswith (lower saida) xlsx).
    + unfold saida, ou. destruct linha_saida; discriminate.
    + destruct (fst (splitext is_sep saida)); discriminate.
  - now apply corrigir_saida_fixed.
  - destruct (endswith (lower saida) xlsx); [now left|]. right.
    exists (fst (splitext is_sep saida)), (snd (splitext is_sep saida)).
    split; [symmetry; apply splitext_app | reflexivity].
Qed.

(** ** From the rows to the analysis *)




(** X20: only which numbers are typed matters, not their order nor their
    repetition: two lines, neither 'todos', whose pieces [int] reads as two
    lists of numbers with the same members select the same rows. *)
Theorem selecao_sem_ordem (A : Type) (int : str -> option Z)
        (linha linha' : str) (dados : list (Observacao A)) (ks ks' : list Z) :
  str_eqb (lower (strip linha)) (lit "todos") = false ->
  str_eqb (lower (strip linha')) (lit "todos") = false ->
  Forall2 (fun i k => int (strip i) = Some k) (split "," (strip linha)) ks ->
  Forall2 (fun i k => int (strip i) = Some k) (split "," (strip linha')) ks' ->
  (forall k, In k ks <-> In k ks') ->
  selecionar_anos int linha dados = selecionar_anos int linha' dados.
Proof.
  intros Hnt Hnt' Hks Hks' Hsame.
  rewrite (selecionar_anos_numeros int linha dados Hnt Hks).
  rewrite (selecionar_anos_numeros int linha' dados Hnt' Hks').
  set (ok := fun k => (- len (anos dados) <? k)%Z && (k <=? len (anos dados))%Z).
  set (pick := fun k => nth (Z.to_nat ((k - 1) mod len (anos dados))) (anos dados) 0%Z).
  assert (Hok : forallb ok ks = forallb ok ks').
  { apply eq_true_iff_eq. rewrite !forallb_forall. split; intros Hall k Hk.
    - apply Hall. now apply Hsame.
    - apply Hall. now apply Hsame. }
  rewrite Hok. destruct (forallb ok ks'); [|reflexivity].
  apply filter_ext. intros o. unfold isin.
  apply eq_true_iff_eq. rewrite !existsb_exists. split.
  - intros (y & Hy & E). apply in_map_iff in Hy. destruct Hy as (k & <- & Hk).
    exists (pick k). split; [|exact E]. apply in_map. now apply Hsame.
  - intros (y & Hy & E). apply in_map_iff in Hy. destruct Hy as (k & <- & Hk).
    exists (pick k). split; [|exact E]. apply in_map. now apply Hsame.
Qed.

(** An instance: "3, 1" and "1,3,1". *)
Lemma selecao_sem_ordem_witness :
  selecionar_anos int_decimal (lit "3, 1")
    [ {| Data := {| year := 2021; month := 1; day := 1 |}; Total := 1%float |};
      {| Data := {| year := 2020; month := 1; day := 1 |}; Total := 2%float |};
      {| Data := {| year := 2022; month := 1; day := 1 |}; Total := 3%float |} ]
  = selecionar_anos int_decimal (lit "1,3,1")
    [ {| Data := {| year := 2021; month := 1; day := 1 |}; Total := 1%float |};
      {| Data := {| year := 2020; month := 1; day := 1 |}; Total := 2%float |};
      {| Data := {| year := 2022; month := 1; day := 1 |}; Total := 3%float |} ].
Proof.
  apply (@selecao_sem_ordem float int_decimal (lit "3, 1") (lit "1,3,1") _
           [3; 1]%Z [1; 3; 1]%Z).
  - vm_compute. reflexivity.
  - vm_compute. reflexivity.
  - vm_compute. repeat constructor.
  - vm_compute. repeat constructor.
  - intros k. cbn [In]. tauto.
Defined.
